(** * Gas Fee Optimizer

    A shallow embedding of [src/gas-optimizer.js] and the properties its
    specification states about it.

    - JavaScript numbers are IEEE-754 binary64 values: [PrimFloat.float],
      with [+] as [PrimFloat.add] and [<] as [PrimFloat.ltb].
    - ethers' [BigNumber] is arbitrary precision: [Z].
    - A JavaScript object used as a map is the list of its
      [Object.entries], in property order.
    - Network, file system, clock, environment and console are a [World]
      of answers and a trace of [Event]s, threaded by the monad [M]. *)

From Stdlib Require Import ZArith QArith List String Ascii HexString Bool Lia Floats.
Import ListNotations.

Local Open Scope string_scope.
Local Open Scope list_scope.

#[local] Set Warnings "-inexact-float,-register-all".

(* ================================================================== *)
(** * Part I: the program *)
(* ================================================================== *)

(** ** JavaScript values *)

(** The number [undefined] is coerced to by an arithmetic operator. *)
Definition NaN : float := PrimFloat.nan.

(** Values that a parsed JSON-RPC result can hold, with [JUndefined] for
    what a missing property reads as. *)
Inductive JsVal : Type :=
| JUndefined
| JNull
| JBool (b : bool)
| JNum (n : float)
| JStr (s : string)
| JArr (items : list JsVal)
| JObj (fields : list (string * JsVal)).

(** [s] in a boolean position: only the empty string is falsy. *)
Definition truthy_string (s : string) : bool :=
  negb (String.eqb s "").

(** A string-or-undefined in a boolean position. *)
Definition truthy_opt (o : option string) : bool :=
  match o with
  | Some s => truthy_string s
  | None => false
  end.

(** [v] in a boolean position ([ToBoolean]). *)
Definition truthy (v : JsVal) : bool :=
  match v with
  | JUndefined | JNull => false
  | JBool b => b
  | JNum n => negb (PrimFloat.eqb n 0 || PrimFloat.is_nan n)
  | JStr s => truthy_string s
  | JArr _ | JObj _ => true
  end.

(** A JavaScript object keyed by ordinary (non-index) strings, as the list
    of its entries in property order, which for such keys is insertion
    order. *)
Definition Obj (A : Type) : Type := list (string * A).

Fixpoint obj_get {A : Type} (o : Obj A) (k : string) : option A :=
  match o with
  | [] => None
  | (k', v) :: o' => if String.eqb k' k then Some v else obj_get o' k
  end.

(** [o[k] = v]: an existing property keeps its place, a new one goes
    last. *)
Fixpoint obj_set {A : Type} (o : Obj A) (k : string) (v : A) : Obj A :=
  match o with
  | [] => [(k, v)]
  | (k', v') :: o' =>
      if String.eqb k' k then (k, v) :: o' else (k', v') :: obj_set o' k v
  end.

Definition obj_keys {A : Type} (o : Obj A) : list string := map fst o.

(** [v.reward] for a truthy [v]. *)
Definition get_reward (v : JsVal) : JsVal :=
  match v with
  | JObj fields =>
      match obj_get fields "reward" with
      | Some x => x
      | None => JUndefined
      end
  | _ => JUndefined
  end.

(** Truthiness of [v.length] for a truthy [v]. *)
Definition length_truthy (v : JsVal) : bool :=
  match v with
  | JArr items => negb (Nat.eqb (List.length items) 0)
  | JStr s => negb (Nat.eqb (String.length s) 0)
  | JObj fields =>
      match obj_get fields "length" with
      | Some x => truthy x
      | None => false
      end
  | _ => false
  end.

(** [v[0]] for a truthy [v]. *)
Definition get_index0 (v : JsVal) : JsVal :=
  match v with
  | JArr (x :: _) => x
  | JStr (String c _) => JStr (String c "")
  | JObj fields =>
      match obj_get fields "0" with
      | Some x => x
      | None => JUndefined
      end
  | _ => JUndefined
  end.

(** ** Exceptions *)

(** A thrown value, by what the program reads of it: [e.message] and
    [String(e)]. *)
Record Thrown : Type := mkThrown {
  thrown_message : option string;
  thrown_string : string
}.

Inductive Completion (A : Type) : Type :=
| Normal (a : A)
| Throw (e : Thrown).

Arguments Normal {A} a.
Arguments Throw {A} e.

Definition TypeError (msg : string) : Thrown :=
  {| thrown_message := Some msg; thrown_string := ("TypeError: " ++ msg)%string |}.

(** ** Data model *)

(** One entry of [CHAINS]. *)
Record ChainMeta : Type := mkChainMeta {
  name : string;
  rpcEnv : string
}.

(** One entry of [results]; an absent or [null] property is [None]. *)
Record GasReading : Type := mkGasReading {
  gas_price_gwei : option float;
  priority_fee_gwei : option float;
  error : option string
}.

Record Report : Type := mkReport {
  timestamp : string;
  best_chain : option string;
  recommendation : string;
  chains : Obj GasReading
}.

(** [const CHAINS = { base: ..., optimism: ..., arbitrum: ... }] *)
Definition CHAINS : Obj ChainMeta :=
  [ ("base", {| name := "Base"; rpcEnv := "RPC_BASE" |});
    ("optimism", {| name := "Optimism"; rpcEnv := "RPC_OPTIMISM" |});
    ("arbitrum", {| name := "Arbitrum"; rpcEnv := "RPC_ARBITRUM" |}) ].

(** ** Chain ranker: [chooseBestChain] *)

(** The local [best = { chain: key, score: total }]. *)
Record Best : Type := mkBest {
  chain : string;
  score : float
}.

(** [val.error] in the condition of [if (val.error) continue]. *)
Definition has_error (val : GasReading) : bool :=
  truthy_opt (error val).

(** [pf]: the priority fee, or 0 when it is [null] or [undefined]. *)
Definition pf_of (val : GasReading) : float :=
  match priority_fee_gwei val with
  | Some p => p
  | None => 0%float
  end.

(** [total = val.gas_price_gwei + pf]; an [undefined] gas price adds as
    [NaN]. *)
Definition total_of (val : GasReading) : float :=
  let g := match gas_price_gwei val with
           | Some g => g
           | None => NaN
           end in
  PrimFloat.add g (pf_of val).

(** One turn of the [for ... of Object.entries(chains)] loop. *)
Definition chooseBestChain_step (best : option Best)
    (entry : string * GasReading) : option Best :=
  let (key, val) := entry in
  if has_error val then best
  else
    let total := total_of val in
    match best with
    | None => Some {| chain := key; score := total |}
    | Some b =>
        if PrimFloat.ltb total (score b)
        then Some {| chain := key; score := total |}
        else best
    end.

Definition chooseBestChain_loop (chains : Obj GasReading)
    (best : option Best) : option Best :=
  fold_left chooseBestChain_step chains best.

(** [return best ? best.chain : null] *)
Definition chooseBestChain (chains : Obj GasReading) : option string :=
  match chooseBestChain_loop chains None with
  | Some b => Some (chain b)
  | None => None
  end.

(** What holds of [best] once the loop has gone through [seen]: it names
    an entry without error that no entry without error is below, and that
    no earlier one equals. *)
Definition best_of (seen : Obj GasReading) (best : option Best) : Prop :=
  match best with
  | None => forall k v, In (k, v) seen -> has_error v = true
  | Some b =>
      exists pre v post,
        seen = pre ++ (chain b, v) :: post /\
        has_error v = false /\
        score b = total_of v /\
        (forall k' v', In (k', v') pre -> has_error v' = false ->
           PrimFloat.ltb (total_of v') (score b) = false /\
           PrimFloat.eqb (total_of v') (score b) = false) /\
        (forall k' v', In (k', v') post -> has_error v' = false ->
           PrimFloat.ltb (total_of v') (score b) = false)
  end.

(** ** Effects *)

(** What the ethers and JavaScript runtime supplies and [src/] only calls.
    A decimal string is identified with the rational it denotes. *)
Class Runtime : Type := mkRuntime {
  (** [parseFloat(s)] for a decimal string [s] *)
  parseFloat : Q -> float;
  (** [ethers.utils.hexValue(n)] *)
  hexValue : Z -> Completion string;
  (** [ethers.BigNumber.from(v)] *)
  BigNumber_from : JsVal -> Completion Z;
  (** [JSON.stringify(report, null, 2)] *)
  JSON_stringify : Report -> string
}.

(** The answers of one JSON-RPC endpoint to the three calls made on its
    provider. *)
Record Endpoint : Type := mkEndpoint {
  getGasPrice : Completion Z;
  getBlockNumber : Completion Z;
  send : string -> list JsVal -> Completion JsVal
}.

Record Provider : Type := mkProvider {
  provider_url : string;
  provider_endpoint : Endpoint
}.

(** Everything outside the process during one run. *)
Record World : Type := mkWorld {
  (** [process.env] *)
  env : string -> option string;
  (** [new Date().toISOString()] *)
  clock : string;
  (** [REPORTS_DIR], which exists once the module is loaded *)
  REPORTS_DIR : string;
  (** the endpoint listening at a URL *)
  endpoint : string -> Endpoint;
  (** [fs.writeFileSync(filename, data)] *)
  writeFileSync : string -> string -> Completion unit;
  (** [axios.post(url, body, { headers: { 'Content-Type': 'application/json' } })] *)
  axios_post : string -> Report -> Completion unit
}.

Inductive Request : Type :=
| GetGasPrice
| GetBlockNumber
| Send (method : string) (params : list JsVal).

Inductive LogArg : Type :=
| LogStr (s : string)
| LogThrown (e : Thrown).

(** What a run does to the outside, in order. *)
Inductive Event : Type :=
| Rpc (url : string) (req : Request)
| WriteFile (filename data : string)
| Post (url : string) (body : Report)
| ConsoleLog (args : list LogArg)
| ConsoleWarn (args : list LogArg)
| ConsoleError (args : list LogArg).

Definition is_rpc (ev : Event) : bool :=
  match ev with
  | Rpc _ _ => true
  | _ => false
  end.

(** A computation: the events it performed and how it completed. *)
Definition M (A : Type) : Type := (list Event * Completion A)%type.

Definition ret {A : Type} (a : A) : M A := ([], Normal a).

Definition bind {A B : Type} (m : M A) (f : A -> M B) : M B :=
  match m with
  | (t, Normal a) => let (t', r) := f a in (t ++ t', r)
  | (t, Throw e) => (t, Throw e)
  end.

Definition lift {A : Type} (c : Completion A) : M A := ([], c).

(** An effect: the event, then the world's answer. *)
Definition perform {A : Type} (ev : Event) (c : Completion A) : M A :=
  ([ev], c).

(** [try { m } catch (e) { h e }] *)
Definition try_catch {A : Type} (m : M A) (h : Thrown -> M A) : M A :=
  match m with
  | (t, Normal a) => (t, Normal a)
  | (t, Throw e) => let (t', r) := h e in (t ++ t', r)
  end.

Declare Scope js_scope.
Delimit Scope js_scope with js.
Notation "x <- m ;; k" := (bind m (fun x => k))
  (at level 61, m at next level, right associativity) : js_scope.
Notation "m ;; k" := (bind m (fun _ => k))
  (at level 61, right associativity) : js_scope.
Local Open Scope js_scope.

Definition trace {A : Type} (m : M A) : list Event := fst m.
Definition outcome {A : Type} (m : M A) : Completion A := snd m.

(** [for (const x of xs) acc = await body(acc, x)] *)
Fixpoint for_of {A S : Type} (body : S -> A -> M S) (xs : list A) (acc : S)
    : M S :=
  match xs with
  | [] => ret acc
  | x :: xs' => acc' <- body acc x ;; for_of body xs' acc'
  end.

(** [items.map(f)], stopping at the first call that throws. *)
Fixpoint array_map {A : Type} (f : JsVal -> Completion A)
    (items : list JsVal) : Completion (list A) :=
  match items with
  | [] => Normal []
  | x :: items' =>
      match f x with
      | Throw e => Throw e
      | Normal y =>
          match array_map f items' with
          | Throw e => Throw e
          | Normal ys => Normal (y :: ys)
          end
      end
  end.

(** [v.map(f)]: only an array has the method. *)
Definition js_map {A : Type} (f : JsVal -> Completion A) (v : JsVal)
    : Completion (list A) :=
  match v with
  | JArr items => array_map f items
  | _ => Throw (TypeError "res.reward.map is not a function")
  end.

(** [xs.filter(Boolean)] on BigNumbers and [null]s: a BigNumber is an
    object, hence truthy. *)
Fixpoint filter_Boolean (xs : list (option Z)) : list Z :=
  match xs with
  | [] => []
  | Some b :: xs' => b :: filter_Boolean xs'
  | None :: xs' => filter_Boolean xs'
  end.

(** [ethers.utils.formatUnits(x, 'gwei')]: the decimal [x / 10^9]. *)
Definition formatUnits_gwei (x : Z) : Q := Qmake x 1000000000.

(** [rewards.reduce((a,b)=>a.add(b), BigNumber.from(0)).div(rewards.length)];
    [BigNumber.div] truncates. *)
Definition avgReward (rewards : list Z) : Z :=
  Z.quot (fold_left Z.add rewards 0%Z) (Z.of_nat (List.length rewards)).

Section Program.
Context {rt : Runtime}.

(** ** Gas data fetcher: [getProvider], [fetchGasData] *)

Definition getProvider (w : World) (rpcUrl : string) : M Provider :=
  ret {| provider_url := rpcUrl; provider_endpoint := endpoint w rpcUrl |}.

Definition call_getGasPrice (provider : Provider) : M Z :=
  perform (Rpc (provider_url provider) GetGasPrice)
          (getGasPrice (provider_endpoint provider)).

Definition call_getBlockNumber (provider : Provider) : M Z :=
  perform (Rpc (provider_url provider) GetBlockNumber)
          (getBlockNumber (provider_endpoint provider)).

Definition call_send (provider : Provider) (method : string)
    (params : list JsVal) : M JsVal :=
  perform (Rpc (provider_url provider) (Send method params))
          (send (provider_endpoint provider) method params).

(** [r => r && r[0] ? ethers.BigNumber.from(r[0]) : null] *)
Definition reward_of (r : JsVal) : Completion (option Z) :=
  if truthy r && truthy (get_index0 r) then
    match BigNumber_from (get_index0 r) with
    | Normal b => Normal (Some b)
    | Throw e => Throw e
    end
  else Normal None.

(** The parameters of the [eth_feeHistory] request. *)
Definition feeHistory_params (h_count h_latest : string) : list JsVal :=
  [JStr h_count; JStr h_latest; JArr [JNum 50%float]].

(** The body of the inner [try] of [fetchGasData] (lines 43-59), with the
    final value of [priorityFeeGwei] as its result. *)
Definition estimatePriorityFee (provider : Provider) : M (option float) :=
  latest <- call_getBlockNumber provider ;;
  let blockCount := 5%Z in
  h_count <- lift (hexValue blockCount) ;;
  h_latest <- lift (hexValue latest) ;;
  res <- call_send provider "eth_feeHistory"
           (feeHistory_params h_count h_latest) ;;
  if truthy res && truthy (get_reward res) && length_truthy (get_reward res)
  then
    mapped <- lift (js_map reward_of (get_reward res)) ;;
    let rewards := filter_Boolean mapped in
    if negb (Nat.eqb (List.length rewards) 0)
    then ret (Some (parseFloat (formatUnits_gwei (avgReward rewards))))
    else ret None
  else ret None.

Definition fetchGasData (provider : Provider) : M GasReading :=
  try_catch
    (gasPrice <- call_getGasPrice provider ;;
     priorityFeeGwei <-
       try_catch (estimatePriorityFee provider) (fun _ => ret None) ;;
     ret {| gas_price_gwei := Some (parseFloat (formatUnits_gwei gasPrice));
            priority_fee_gwei := priorityFeeGwei;
            error := None |})
    (fun err =>
       ret {| gas_price_gwei := None;
              priority_fee_gwei := None;
              error := Some (thrown_string err) |}).

(** The ways the estimate of lines 43-59 comes to nothing: a call that
    throws, a result without usable rewards, a reward that is no number. *)
Inductive estimate_fails (provider : Provider) : Prop :=
| fails_getBlockNumber e :
    getBlockNumber (provider_endpoint provider) = Throw e ->
    estimate_fails provider
| fails_hexValue_count latest e :
    getBlockNumber (provider_endpoint provider) = Normal latest ->
    hexValue 5 = Throw e ->
    estimate_fails provider
| fails_hexValue_latest latest h_count e :
    getBlockNumber (provider_endpoint provider) = Normal latest ->
    hexValue 5 = Normal h_count ->
    hexValue latest = Throw e ->
    estimate_fails provider
| fails_send latest h_count h_latest e :
    getBlockNumber (provider_endpoint provider) = Normal latest ->
    hexValue 5 = Normal h_count ->
    hexValue latest = Normal h_latest ->
    send (provider_endpoint provider) "eth_feeHistory"
         (feeHistory_params h_count h_latest) = Throw e ->
    estimate_fails provider
| fails_no_reward latest h_count h_latest res :
    getBlockNumber (provider_endpoint provider) = Normal latest ->
    hexValue 5 = Normal h_count ->
    hexValue latest = Normal h_latest ->
    send (provider_endpoint provider) "eth_feeHistory"
         (feeHistory_params h_count h_latest) = Normal res ->
    truthy res && truthy (get_reward res) && length_truthy (get_reward res)
      = false ->
    estimate_fails provider
| fails_map latest h_count h_latest res e :
    getBlockNumber (provider_endpoint provider) = Normal latest ->
    hexValue 5 = Normal h_count ->
    hexValue latest = Normal h_latest ->
    send (provider_endpoint provider) "eth_feeHistory"
         (feeHistory_params h_count h_latest) = Normal res ->
    js_map reward_of (get_reward res) = Throw e ->
    estimate_fails provider
| fails_no_block_reports latest h_count h_latest res mapped :
    getBlockNumber (provider_endpoint provider) = Normal latest ->
    hexValue 5 = Normal h_count ->
    hexValue latest = Normal h_latest ->
    send (provider_endpoint provider) "eth_feeHistory"
         (feeHistory_params h_count h_latest) = Normal res ->
    js_map reward_of (get_reward res) = Normal mapped ->
    filter_Boolean mapped = [] ->
    estimate_fails provider.

(** ** Orchestrator: [main] *)

(** The reading [{ error: `Missing env ${meta.rpcEnv}` }]. *)
Definition missing_env (meta : ChainMeta) : GasReading :=
  {| gas_price_gwei := None;
     priority_fee_gwei := None;
     error := Some ("Missing env " ++ rpcEnv meta)%string |}.

(** One turn of the loop over [Object.entries(CHAINS)] (lines 90-98). *)
Definition main_step (w : World) (results : Obj GasReading)
    (entry : string * ChainMeta) : M (Obj GasReading) :=
  let (key, meta) := entry in
  match env w (rpcEnv meta) with
  | Some rpc =>
      if negb (truthy_string rpc)
      then ret (obj_set results key (missing_env meta))
      else
        provider <- getProvider w rpc ;;
        reading <- fetchGasData provider ;;
        ret (obj_set results key reading)
  | None => ret (obj_set results key (missing_env meta))
  end.

(** Lines 89-98: [results] after the loop. *)
Definition collectReadings (w : World) (registry : Obj ChainMeta)
    : M (Obj GasReading) :=
  for_of (main_step w) registry [].

(** Line 101: the recommendation sentence. *)
Definition recommendation_of (best : option string) : string :=
  match best with
  | Some c =>
      if truthy_string c
      then ("Send your transactions on " ++ c ++ " now for lowest fees.")%string
      else "No recommendation (insufficient data)."
  | None => "No recommendation (insufficient data)."
  end.

(** Lines 100-108: the report object. *)
Definition buildReport (ts : string) (results : Obj GasReading) : Report :=
  let best := chooseBestChain results in
  {| timestamp := ts;
     best_chain := best;
     recommendation := recommendation_of best;
     chains := results |}.

(** [timestamp.replace(/[:.]/g, '-')] *)
Fixpoint replace_colon_dot (s : string) : string :=
  match s with
  | EmptyString => EmptyString
  | String c s' =>
      String (if Ascii.eqb c ":" || Ascii.eqb c "." then "-"%char else c)
             (replace_colon_dot s')
  end.

(** [path.join(dir, file)] for a plain file name. *)
Definition path_join (dir file : string) : string :=
  (dir ++ "/" ++ file)%string.

Definition report_filename (w : World) (ts : string) : string :=
  path_join (REPORTS_DIR w)
            ("report-" ++ replace_colon_dot ts ++ ".json")%string.

(** [e.message || e] *)
Definition message_or_self (e : Thrown) : LogArg :=
  match thrown_message e with
  | Some m => if truthy_string m then LogStr m else LogThrown e
  | None => LogThrown e
  end.

(** Lines 110-126: write the file, post to the webhook, print. *)
Definition deliver (w : World) (report : Report) : M unit :=
  let filename := report_filename w (timestamp report) in
  perform (WriteFile filename (JSON_stringify report))
          (writeFileSync w filename (JSON_stringify report)) ;;
  perform (ConsoleLog [LogStr "Wrote"; LogStr filename]) (Normal tt) ;;
  (match env w "WEBHOOK_URL" with
   | Some webhook =>
       if truthy_string webhook
       then
         try_catch
           (perform (Post webhook report) (axios_post w webhook report) ;;
            perform (ConsoleLog [LogStr "Posted to webhook"]) (Normal tt))
           (fun e =>
              perform (ConsoleWarn [LogStr "Webhook post failed:";
                                    message_or_self e]) (Normal tt))
       else ret tt
   | None => ret tt
   end) ;;
  perform (ConsoleLog [LogStr (JSON_stringify report)]) (Normal tt).

(** Lines 88-108: [report] as [main] has it before it writes anything. *)
Definition assemble (w : World) : M Report :=
  let timestamp := clock w in
  results <- collectReadings w CHAINS ;;
  ret (buildReport timestamp results).

Definition main (w : World) : M unit :=
  report <- assemble w ;;
  deliver w report.

(** [main().catch(err => { console.error(err); process.exit(1); })]:
    the events of the process and its exit code. *)
Definition run (w : World) : list Event * Z :=
  match main w with
  | (t, Normal _) => (t, 0%Z)
  | (t, Throw err) => (t ++ [ConsoleError [LogThrown err]], 1%Z)
  end.

End Program.

(** ** How a run ends *)

Section Endings.
Context {rt : Runtime}.

(** What lines 114-123 do, by the webhook setting and the post's fate. *)
Inductive notification (w : World) (report : Report) : list Event -> Prop :=
| no_webhook :
    truthy_opt (env w "WEBHOOK_URL") = false ->
    notification w report []
| posted webhook :
    env w "WEBHOOK_URL" = Some webhook ->
    truthy_string webhook = true ->
    axios_post w webhook report = Normal tt ->
    notification w report
      [Post webhook report; ConsoleLog [LogStr "Posted to webhook"]]
| post_failed webhook e :
    env w "WEBHOOK_URL" = Some webhook ->
    truthy_string webhook = true ->
    axios_post w webhook report = Throw e ->
    notification w report
      [Post webhook report;
       ConsoleWarn [LogStr "Webhook post failed:"; message_or_self e]].

(** The events after the loop and the exit code, by the write's fate. *)
Inductive ending (w : World) (report : Report) : list Event -> Z -> Prop :=
| ends_unwritten e :
    writeFileSync w (report_filename w (timestamp report))
                    (JSON_stringify report) = Throw e ->
    ending w report
      [WriteFile (report_filename w (timestamp report))
                 (JSON_stringify report);
       ConsoleError [LogThrown e]] 1%Z
| ends_written rest :
    writeFileSync w (report_filename w (timestamp report))
                    (JSON_stringify report) = Normal tt ->
    notification w report rest ->
    ending w report
      (WriteFile (report_filename w (timestamp report))
                 (JSON_stringify report)
       :: ConsoleLog [LogStr "Wrote";
                      LogStr (report_filename w (timestamp report))]
       :: rest ++ [ConsoleLog [LogStr (JSON_stringify report)]]) 0%Z.

End Endings.

(** ** A sample runtime and sample runs *)

Module Sample.

Definition float_of_Z (z : Z) : float :=
  match z with
  | Z0 => 0%float
  | Zpos _ => PrimFloat.of_uint63 (Uint63.of_Z z)
  | Zneg p => PrimFloat.opp (PrimFloat.of_uint63 (Uint63.of_Z (Zpos p)))
  end.

(** The correctly rounded quotient, which is what [parseFloat] returns
    for the decimal, as long as numerator and denominator are below
    2^53. *)
Definition parseFloat_small (q : Q) : float :=
  PrimFloat.div (float_of_Z (Qnum q)) (float_of_Z (Zpos (Qden q))).

Definition hexValue_nonneg (n : Z) : Completion string :=
  if (n <? 0)%Z
  then Throw (mkThrown (Some "invalid hexlify value") "Error: invalid hexlify value")
  else Normal (HexString.of_Z n).

(** Hexadecimal strings only. *)
Definition BigNumber_from_hex (v : JsVal) : Completion Z :=
  match v with
  | JStr s =>
      if String.prefix "0x" s
      then Normal (HexString.to_Z s)
      else Throw (mkThrown (Some "invalid BigNumber string")
                           "Error: invalid BigNumber string")
  | _ => Throw (mkThrown (Some "invalid BigNumber value")
                         "Error: invalid BigNumber value")
  end.

(** A stand-in for the serializer that keeps the timestamp and the
    recommendation. *)
Definition stringify_brief (r : Report) : string :=
  (timestamp r ++ " " ++ recommendation r)%string.

Definition runtime : Runtime :=
  {| parseFloat := parseFloat_small;
     hexValue := hexValue_nonneg;
     BigNumber_from := BigNumber_from_hex;
     JSON_stringify := stringify_brief |}.

Definition network_error : Thrown :=
  mkThrown (Some "could not detect network")
           "Error: could not detect network".

(** An endpoint with gas price [gas] wei whose last five blocks each
    report the median reward [tip] (a hexadecimal string). *)
Definition endpoint_with (gas : Z) (tip : string) : Endpoint :=
  {| getGasPrice := Normal gas;
     getBlockNumber := Normal 1000%Z;
     send := fun _ _ =>
       Normal (JObj [("oldestBlock", JStr "0x3e4");
                     ("reward", JArr [JArr [JStr tip]; JArr [JStr tip];
                                      JArr [JStr tip]; JArr [JStr tip];
                                      JArr [JStr tip]])]) |}.

(** An endpoint that answers [eth_gasPrice] only. *)
Definition endpoint_gas_only (gas : Z) : Endpoint :=
  {| getGasPrice := Normal gas;
     getBlockNumber := Normal 1000%Z;
     send := fun _ _ =>
       Throw (mkThrown (Some "the method eth_feeHistory does not exist")
                       "Error: the method eth_feeHistory does not exist") |}.

Definition endpoint_down : Endpoint :=
  {| getGasPrice := Throw network_error;
     getBlockNumber := Throw network_error;
     send := fun _ _ => Throw network_error |}.

(** base 12 + 1.2 gwei, optimism 6 + 0.8 gwei, arbitrum 9 + 1.0 gwei. *)
Definition endpoints (url : string) : Endpoint :=
  if String.eqb url "https://base.example" then
    endpoint_with 12000000000 "0x47868c00"
  else if String.eqb url "https://optimism.example" then
    endpoint_with 6000000000 "0x2faf0800"
  else if String.eqb url "https://arbitrum.example" then
    endpoint_with 9000000000 "0x3b9aca00"
  else endpoint_down.

Definition env_all (x : string) : option string :=
  if String.eqb x "RPC_BASE" then Some "https://base.example"
  else if String.eqb x "RPC_OPTIMISM" then Some "https://optimism.example"
  else if String.eqb x "RPC_ARBITRUM" then Some "https://arbitrum.example"
  else None.

(** All three chains configured, no webhook. *)
Definition world_all : World :=
  {| env := env_all;
     clock := "2025-09-28T12:00:00.000Z";
     REPORTS_DIR := "/app/reports";
     endpoint := endpoints;
     writeFileSync := fun _ _ => Normal tt;
     axios_post := fun _ _ => Normal tt |}.

(** [RPC_BASE] unset, and a webhook that cannot be reached. *)
Definition world_partial : World :=
  {| env := fun x =>
       if String.eqb x "RPC_BASE" then None
       else if String.eqb x "WEBHOOK_URL" then Some "https://hook.example"
       else env_all x;
     clock := "2025-09-28T13:00:00.000Z";
     REPORTS_DIR := "/app/reports";
     endpoint := endpoints;
     writeFileSync := fun _ _ => Normal tt;
     axios_post := fun _ _ =>
       Throw (mkThrown (Some "connect ECONNREFUSED")
                       "Error: connect ECONNREFUSED") |}.

Definition reading (gas : float) (tip : option float) : GasReading :=
  {| gas_price_gwei := Some gas; priority_fee_gwei := tip; error := None |}.

Definition failed (msg : string) : GasReading :=
  {| gas_price_gwei := None; priority_fee_gwei := None; error := Some msg |}.

(** [{A: score 10, B: score 5, C: error}] *)
Definition readings_ABC : Obj GasReading :=
  [ ("A", reading 8 (Some 2%float));
    ("B", reading 5 None);
    ("C", failed "Error: timeout") ].

(** [{A: score 7, B: score 7}] *)
Definition readings_tie : Obj GasReading :=
  [ ("A", reading 7 None); ("B", reading 6 (Some 1%float)) ].

End Sample.

(** ** Further sample runs *)

Definition is_post (ev : Event) : bool :=
  match ev with
  | Post _ _ => true
  | _ => false
  end.


(** [{ error: `Missing env ...` }] for every chain of a registry. *)
Definition all_missing (registry : Obj ChainMeta) : Obj GasReading :=
  map (fun entry => (fst entry, missing_env (snd entry))) registry.

Module Scenario.

Definition disk_full : Thrown :=
  mkThrown (Some "ENOSPC: no space left on device, write")
           "Error: ENOSPC: no space left on device, write".

(** Every chain configured, a webhook that answers, and a disk that
    refuses the write. *)
Definition world_disk_full : World :=
  {| env := fun x =>
       if String.eqb x "WEBHOOK_URL" then Some "https://hook.example"
       else Sample.env_all x;
     clock := "2025-09-28T14:00:00.000Z";
     REPORTS_DIR := "/app/reports";
     endpoint := Sample.endpoints;
     writeFileSync := fun _ _ => Throw disk_full;
     axios_post := fun _ _ => Normal tt |}.

(** Nothing configured at all. *)
Definition world_unconfigured : World :=
  {| env := fun _ => None;
     clock := "2025-09-28T15:00:00.000Z";
     REPORTS_DIR := "/app/reports";
     endpoint := Sample.endpoints;
     writeFileSync := fun _ _ => Normal tt;
     axios_post := fun _ _ => Normal tt |}.

(** An endpoint whose third block reports a reward that is no number. *)
Definition endpoint_bad_reward : Endpoint :=
  {| getGasPrice := Normal 6000000000%Z;
     getBlockNumber := Normal 1000%Z;
     send := fun _ _ =>
       Normal (JObj [("reward", JArr [JArr [JStr "0x2faf0800"];
                                      JArr [JStr "0x2faf0800"];
                                      JArr [JStr "n/a"];
                                      JArr [JStr "0x2faf0800"]])]) |}.

Definition provider_bad_reward : Provider :=
  {| provider_url := "https://optimism.example";
     provider_endpoint := endpoint_bad_reward |}.

Definition provider_down : Provider :=
  {| provider_url := "https://base.example";
     provider_endpoint := Sample.endpoint_down |}.

(** A reading with neither a gas price nor a truthy error, ahead of a
    proper one. *)
Definition readings_nan_first : Obj GasReading :=
  [ ("A", Sample.failed "");
    ("B", Sample.reading 5 None) ].

(** The cheapest chain in the middle. *)
Definition readings_middle : Obj GasReading :=
  [ ("base", Sample.reading 12 (Some 1.5%float));
    ("down", Sample.failed "Error: timeout");
    ("optimism", Sample.reading 6 (Some 0.5%float));
    ("arbitrum", Sample.reading 9 (Some 1%float)) ].

End Scenario.

(* ================================================================== *)
(** * Part II: properties *)
(* ================================================================== *)

(** ** The order of JavaScript numbers *)

Module JsNumber.

(** Case analysis on the exponent and mantissa comparisons that
    [SFcompare] makes. *)
Ltac sf_cases :=
  repeat match goal with
  | |- context [Pos.compare_cont Eq ?a ?b] =>
      change (Pos.compare_cont Eq a b) with (Pos.compare a b)
  | H : context [Pos.compare_cont Eq ?a ?b] |- _ =>
      change (Pos.compare_cont Eq a b) with (Pos.compare a b) in H
  end;
  repeat match goal with
  | H : context [Z.compare ?a ?b] |- _ =>
      destruct (Z.compare_spec a b); simpl in H; try discriminate H
  | H : context [Pos.compare ?a ?b] |- _ =>
      destruct (Pos.compare_spec a b); simpl in H; try discriminate H
  end;
  repeat match goal with
  | |- context [Z.compare ?a ?b] => destruct (Z.compare_spec a b); simpl
  | |- context [Pos.compare ?a ?b] => destruct (Pos.compare_spec a b); simpl
  end;
  try reflexivity; try discriminate; try lia.

Ltac sf_destruct a b c :=
  destruct a as [[]|[]| |[] ? ?], b as [[]|[]| |[] ? ?],
           c as [[]|[]| |[] ? ?];
  simpl; try discriminate; try reflexivity.

Lemma SFcompare_lt_trans (a b c : spec_float) :
  SFcompare a b = Some Lt -> SFcompare b c = Some Lt ->
  SFcompare a c = Some Lt.
Proof. sf_destruct a b c; intros H1 H2; sf_cases. Qed.

Lemma SFcompare_eq_lt (a b c : spec_float) :
  SFcompare a b = Some Eq -> SFcompare b c = Some Lt ->
  SFcompare a c = Some Lt.
Proof. sf_destruct a b c; intros H1 H2; sf_cases. Qed.

Lemma SFcompare_lt_irrefl (a : spec_float) : SFcompare a a <> Some Lt.
Proof.
  destruct a as [[]|[]| |[] m e]; simpl; try discriminate;
    rewrite Z.compare_refl;
    change (Pos.compare_cont Eq m m) with (Pos.compare m m);
    rewrite Pos.compare_refl; discriminate.
Qed.

Lemma SFcompare_total (a b : spec_float) :
  a <> S754_nan -> b <> S754_nan ->
  SFcompare a b <> Some Lt ->
  SFcompare b a = Some Lt \/ SFcompare b a = Some Eq.
Proof.
  destruct a as [[]|[]| |[] ma ea], b as [[]|[]| |[] mb eb]; simpl;
    intros Ha Hb H; try congruence; auto;
    change (Pos.compare_cont Eq ma mb) with (Pos.compare ma mb) in H;
    change (Pos.compare_cont Eq mb ma) with (Pos.compare mb ma);
    rewrite (Z.compare_antisym ea eb), (Pos.compare_antisym ma mb);
    destruct (ea ?= eb)%Z; simpl in *; try congruence; auto;
    destruct (ma ?= mb)%positive; simpl in *; try congruence; auto.
Qed.

Lemma ltb_cases (x y : float) :
  PrimFloat.ltb x y = true <-> SFcompare (Prim2SF x) (Prim2SF y) = Some Lt.
Proof.
  rewrite ltb_spec. unfold SFltb.
  destruct (SFcompare (Prim2SF x) (Prim2SF y)) as [[]|];
    split; congruence.
Qed.

Lemma eqb_cases (x y : float) :
  PrimFloat.eqb x y = true <-> SFcompare (Prim2SF x) (Prim2SF y) = Some Eq.
Proof.
  rewrite eqb_spec. unfold SFeqb.
  destruct (SFcompare (Prim2SF x) (Prim2SF y)) as [[]|];
    split; congruence.
Qed.

Lemma ltb_trans (x y z : float) :
  PrimFloat.ltb x y = true -> PrimFloat.ltb y z = true ->
  PrimFloat.ltb x z = true.
Proof. rewrite !ltb_cases. apply SFcompare_lt_trans. Qed.

Lemma eqb_ltb_trans (x y z : float) :
  PrimFloat.eqb x y = true -> PrimFloat.ltb y z = true ->
  PrimFloat.ltb x z = true.
Proof. rewrite !ltb_cases, eqb_cases. apply SFcompare_eq_lt. Qed.

Lemma ltb_irrefl (x : float) : PrimFloat.ltb x x = false.
Proof.
  destruct (PrimFloat.ltb x x) eqn:E; [|reflexivity].
  apply ltb_cases in E. now apply SFcompare_lt_irrefl in E.
Qed.

(** Below a strictly smaller number: neither smaller nor equal. *)
Lemma not_ltb_below (e b t : float) :
  PrimFloat.ltb e b = false -> PrimFloat.ltb t b = true ->
  PrimFloat.ltb e t = false /\ PrimFloat.eqb e t = false.
Proof.
  intros Heb Htb. split.
  - destruct (PrimFloat.ltb e t) eqn:E; [|reflexivity].
    rewrite (ltb_trans _ _ _ E Htb) in Heb. discriminate.
  - destruct (PrimFloat.eqb e t) eqn:E; [|reflexivity].
    rewrite (eqb_ltb_trans _ _ _ E Htb) in Heb. discriminate.
Qed.

Lemma ltb_asym (t b : float) :
  PrimFloat.ltb t b = true ->
  PrimFloat.ltb b t = false /\ PrimFloat.eqb b t = false.
Proof.
  intros Htb. split.
  - destruct (PrimFloat.ltb b t) eqn:E; [|reflexivity].
    pose proof (ltb_trans _ _ _ E Htb) as F.
    rewrite ltb_irrefl in F. discriminate.
  - destruct (PrimFloat.eqb b t) eqn:E; [|reflexivity].
    pose proof (eqb_ltb_trans _ _ _ E Htb) as F.
    rewrite ltb_irrefl in F. discriminate.
Qed.

Lemma eqb_not_ltb (x y : float) :
  PrimFloat.eqb x y = true -> PrimFloat.ltb x y = false.
Proof.
  intros E. apply eqb_cases in E.
  destruct (PrimFloat.ltb x y) eqn:L; [|reflexivity].
  apply ltb_cases in L. congruence.
Qed.

Lemma is_nan_Prim2SF (x : float) :
  PrimFloat.is_nan x = false -> Prim2SF x <> S754_nan.
Proof.
  unfold PrimFloat.is_nan. rewrite eqb_spec. unfold SFeqb.
  intros H E. rewrite E in H. discriminate.
Qed.

(** On numbers proper, "not below" is "at least". *)
Lemma not_ltb_leb (x y : float) :
  PrimFloat.is_nan x = false -> PrimFloat.is_nan y = false ->
  PrimFloat.ltb x y = false -> PrimFloat.leb y x = true.
Proof.
  intros Hx Hy H. rewrite leb_spec. unfold SFleb.
  destruct (SFcompare_total (Prim2SF x) (Prim2SF y)) as [E|E];
    try (now apply is_nan_Prim2SF); try (now rewrite E).
  intros E. apply ltb_cases in E. congruence.
Qed.

End JsNumber.

(** ** The chain ranker *)

Module Ranker.
Import JsNumber.

Lemma best_of_nil : best_of [] None.
Proof. intros k v []. Qed.

Lemma step_best_of seen best key val :
  best_of seen best ->
  best_of (seen ++ [(key, val)]) (chooseBestChain_step best (key, val)).
Proof.
  intros Inv. unfold chooseBestChain_step.
  destruct (has_error val) eqn:Herr.
  - (* the entry is skipped *)
    destruct best as [b|]; simpl in *.
    + destruct Inv as (pre & v & post & -> & Hv & Hs & Hpre & Hpost).
      exists pre, v, (post ++ [(key, val)]).
      split; [now rewrite <- app_assoc|].
      do 3 (split; [assumption|]).
      intros k' v' Hin Hok. apply in_app_or in Hin as [Hin|[Heq|[]]].
      * eapply Hpost; eassumption.
      * inversion Heq; subst. congruence.
    + intros k v Hin. apply in_app_or in Hin as [Hin|[Heq|[]]].
      * eapply Inv; eassumption.
      * inversion Heq; subst. assumption.
  - destruct best as [b|]; simpl in *.
    + destruct Inv as (pre & v & post & -> & Hv & Hs & Hpre & Hpost).
      destruct (PrimFloat.ltb (total_of val) (score b)) eqn:Hlt; simpl.
      * (* strictly lower: the entry becomes the best *)
        exists (pre ++ (chain b, v) :: post), val, [].
        do 3 (split; [easy|]). split; [|intros k' v' []].
        intros k' v' Hin Hok. apply in_app_or in Hin as [Hin|[Heq|Hin]].
        -- destruct (Hpre _ _ Hin Hok) as [L _].
           apply (not_ltb_below _ _ _ L Hlt).
        -- inversion Heq; subst. rewrite <- Hs. apply (ltb_asym _ _ Hlt).
        -- apply (not_ltb_below _ _ _ (Hpost _ _ Hin Hok) Hlt).
      * (* not strictly lower: the best stays *)
        exists pre, v, (post ++ [(key, val)]).
        split; [now rewrite <- app_assoc|].
        do 3 (split; [assumption|]).
        intros k' v' Hin Hok. apply in_app_or in Hin as [Hin|[Heq|[]]].
        -- eapply Hpost; eassumption.
        -- inversion Heq; subst. assumption.
    + (* the first entry without error *)
      exists seen, val, [].
      do 3 (split; [easy|]). split; [|intros k' v' []].
      intros k' v' Hin Hok. rewrite (Inv _ _ Hin) in Hok. discriminate.
Qed.

Lemma loop_best_of chains : forall seen best,
  best_of seen best ->
  best_of (seen ++ chains) (chooseBestChain_loop chains best).
Proof.
  induction chains as [|[key val] chains IH]; intros seen best Inv.
  - now rewrite app_nil_r.
  - change (seen ++ (key, val) :: chains)
      with (seen ++ [(key, val)] ++ chains).
    rewrite app_assoc. apply IH. now apply step_best_of.
Qed.

Lemma chooseBestChain_best_of chains :
  best_of chains (chooseBestChain_loop chains None).
Proof. apply (loop_best_of chains [] None best_of_nil). Qed.

(** Entries with an error do not take part. *)
Lemma loop_skips_errors chains : forall best,
  chooseBestChain_loop chains best =
  chooseBestChain_loop
    (filter (fun e => negb (has_error (snd e))) chains) best.
Proof.
  induction chains as [|[key val] chains IH]; intros best; [reflexivity|].
  unfold chooseBestChain_loop in *. simpl.
  destruct (has_error val) eqn:Herr; simpl.
  - apply IH.
  - rewrite Herr. apply IH.
Qed.

End Ranker.

(** ** The gas data fetcher *)

Module Fetcher.

Section Facts.
Context {rt : Runtime}.

Ltac run_monad :=
  unfold call_getGasPrice, call_getBlockNumber, call_send, perform, lift,
         bind, try_catch, ret, outcome, trace in *; simpl in *.

Lemma fetchGasData_primary_fails provider e :
  getGasPrice (provider_endpoint provider) = Throw e ->
  fetchGasData provider =
  ([Rpc (provider_url provider) GetGasPrice],
   Normal {| gas_price_gwei := None;
             priority_fee_gwei := None;
             error := Some (thrown_string e) |}).
Proof. intros H. unfold fetchGasData. run_monad. now rewrite H. Qed.

Lemma fetchGasData_primary_ok provider gasPrice :
  getGasPrice (provider_endpoint provider) = Normal gasPrice ->
  outcome (fetchGasData provider) =
  Normal {| gas_price_gwei := Some (parseFloat (formatUnits_gwei gasPrice));
            priority_fee_gwei :=
              match outcome (estimatePriorityFee provider) with
              | Normal x => x
              | Throw _ => None
              end;
            error := None |}.
Proof.
  intros H. unfold fetchGasData. run_monad. rewrite H.
  destruct (estimatePriorityFee provider) as [t [x|e]]; reflexivity.
Qed.

Lemma fetchGasData_success provider gasPrice x :
  getGasPrice (provider_endpoint provider) = Normal gasPrice ->
  outcome (estimatePriorityFee provider) = Normal x ->
  fetchGasData provider =
  (Rpc (provider_url provider) GetGasPrice ::
     trace (estimatePriorityFee provider),
   Normal {| gas_price_gwei := Some (parseFloat (formatUnits_gwei gasPrice));
             priority_fee_gwei := x;
             error := None |}).
Proof.
  intros H. unfold fetchGasData. run_monad. rewrite H.
  destruct (estimatePriorityFee provider) as [t [y|e]]; simpl;
    intros [= ->]. now rewrite app_nil_r.
Qed.

(** The rewards that are averaged are those of the blocks that report
    one, in order. *)
Lemma rewards_of_reporting_blocks items : forall mapped,
  array_map reward_of items = Normal mapped ->
  map (fun r => BigNumber_from (get_index0 r))
      (filter (fun r => truthy r && truthy (get_index0 r)) items) =
  map Normal (filter_Boolean mapped).
Proof.
  induction items as [|r items IH]; simpl; intros mapped.
  - now intros [= <-].
  - unfold reward_of at 1.
    destruct (truthy r && truthy (get_index0 r)); simpl.
    + destruct (BigNumber_from (get_index0 r)) as [b|e] eqn:Hb;
        [|discriminate].
      destruct (array_map reward_of items) as [ys|]; [|discriminate].
      intros [= <-]. simpl. f_equal. now apply IH.
    + destruct (array_map reward_of items) as [ys|]; [|discriminate].
      intros [= <-]. simpl. now apply IH.
Qed.

(** [fetchGasData] catches whatever is thrown. *)
Lemma fetchGasData_returns provider :
  exists reading, outcome (fetchGasData provider) = Normal reading.
Proof.
  destruct (getGasPrice (provider_endpoint provider)) as [g|e] eqn:H.
  - rewrite (fetchGasData_primary_ok _ _ H). eauto.
  - rewrite (fetchGasData_primary_fails _ _ H). simpl. eauto.
Qed.

Lemma fetchGasData_trace_url provider ev :
  In ev (trace (fetchGasData provider)) ->
  exists req, ev = Rpc (provider_url provider) req.
Proof.
  unfold fetchGasData, estimatePriorityFee. run_monad.
  repeat match goal with
  | |- context [match ?c with Normal _ => _ | Throw _ => _ end] =>
      destruct c; simpl
  | |- context [if ?c then _ else _] => destruct c; simpl
  end;
  intros Hin;
  repeat (destruct Hin as [<-|Hin]; [eauto|]); destruct Hin.
Qed.

Lemma estimate_fails_none provider :
  estimate_fails provider ->
  match outcome (estimatePriorityFee provider) with
  | Normal x => x
  | Throw _ => None
  end = None.
Proof.
  intros F. unfold estimatePriorityFee. run_monad.
  destruct F;
    repeat match goal with
    | H : _ = Normal _ |- _ => rewrite H; clear H; simpl
    | H : _ = Throw _ |- _ => rewrite H; clear H; simpl
    | H : _ = false |- _ => rewrite H; clear H; simpl
    | H : filter_Boolean _ = [] |- _ => rewrite H; clear H; simpl
    end; try reflexivity.
  - destruct (truthy res && truthy (get_reward res) &&
              length_truthy (get_reward res)); reflexivity.
  - destruct (truthy res && truthy (get_reward res) &&
              length_truthy (get_reward res)); reflexivity.
Qed.

(** Every estimate that yields no fee fails in one of those ways. *)
Lemma estimate_fails_complete provider :
  (forall pf, outcome (estimatePriorityFee provider) <> Normal (Some pf)) ->
  estimate_fails provider.
Proof.
  unfold estimatePriorityFee. run_monad.
  destruct (getBlockNumber (provider_endpoint provider)) as [latest|]
    eqn:Hb; simpl; [|intros _; eapply fails_getBlockNumber; eauto].
  destruct (hexValue 5) as [hc|] eqn:Hc; simpl;
    [|intros _; eapply fails_hexValue_count; eauto].
  destruct (hexValue latest) as [hl|] eqn:Hl; simpl;
    [|intros _; eapply fails_hexValue_latest; eauto].
  destruct (send (provider_endpoint provider) "eth_feeHistory"
              (feeHistory_params hc hl)) as [res|] eqn:Hs; simpl;
    [|intros _; eapply fails_send; eauto].
  destruct (truthy res && truthy (get_reward res) &&
            length_truthy (get_reward res)) eqn:Hg; simpl;
    [|intros _; eapply fails_no_reward; eauto].
  destruct (js_map reward_of (get_reward res)) as [mapped|] eqn:Hm; simpl;
    [|intros _; eapply fails_map; eauto].
  destruct (filter_Boolean mapped) as [|r rs] eqn:Hf; simpl;
    [intros _; eapply fails_no_block_reports; eauto|].
  intros H. exfalso. eapply H. reflexivity.
Qed.

(** What a successful estimate asked for and what it computed. *)
Lemma estimate_some provider pf :
  outcome (estimatePriorityFee provider) = Normal (Some pf) ->
  exists latest h_count h_latest res items mapped,
    getBlockNumber (provider_endpoint provider) = Normal latest /\
    hexValue 5 = Normal h_count /\
    hexValue latest = Normal h_latest /\
    send (provider_endpoint provider) "eth_feeHistory"
         (feeHistory_params h_count h_latest) = Normal res /\
    trace (estimatePriorityFee provider) =
      [Rpc (provider_url provider) GetBlockNumber;
       Rpc (provider_url provider)
           (Send "eth_feeHistory" (feeHistory_params h_count h_latest))] /\
    get_reward res = JArr items /\
    array_map reward_of items = Normal mapped /\
    filter_Boolean mapped <> [] /\
    pf = parseFloat (formatUnits_gwei (avgReward (filter_Boolean mapped))).
Proof.
  unfold estimatePriorityFee. run_monad.
  destruct (getBlockNumber (provider_endpoint provider)) as [latest|]
    eqn:Hb; simpl; [|discriminate].
  destruct (hexValue 5) as [hc|] eqn:Hc; simpl; [|discriminate].
  destruct (hexValue latest) as [hl|] eqn:Hl; simpl; [|discriminate].
  destruct (send (provider_endpoint provider) "eth_feeHistory"
              (feeHistory_params hc hl)) as [res|] eqn:Hs; simpl;
    [|discriminate].
  destruct (truthy res && truthy (get_reward res) &&
            length_truthy (get_reward res)) eqn:Hg; simpl; [|discriminate].
  destruct (js_map reward_of (get_reward res)) as [mapped|] eqn:Hm; simpl;
    [|discriminate].
  destruct (filter_Boolean mapped) as [|r rs] eqn:Hf; simpl; [discriminate|].
  intros H. injection H as <-.
  unfold js_map in Hm.
  destruct (get_reward res) as [| | | | |items|] eqn:Hr; try discriminate.
  exists latest, hc, hl, res, items, mapped. rewrite Hf.
  repeat split; auto. discriminate.
Qed.

End Facts.

End Fetcher.

(** ** Objects as entry lists *)

Module Object.

Section Facts.
Context {A : Type}.
Implicit Types (o : Obj A) (k : string) (v : A).

Lemma keys_set_in o k' v k :
  In k (obj_keys (obj_set o k' v)) <-> In k (obj_keys o) \/ k = k'.
Proof.
  induction o as [|[k0 v0] o IH]; simpl.
  - intuition.
  - destruct (String.eqb_spec k0 k') as [->|Hne]; simpl.
    + intuition.
    + rewrite IH. intuition.
Qed.

Lemma keys_set_fresh o k v :
  ~ In k (obj_keys o) -> obj_keys (obj_set o k v) = obj_keys o ++ [k].
Proof.
  induction o as [|[k0 v0] o IH]; simpl; intros Hnin; [reflexivity|].
  destruct (String.eqb_spec k0 k) as [->|Hne]; simpl.
  - exfalso. auto.
  - f_equal. apply IH. auto.
Qed.

Lemma get_set_same o k v : obj_get (obj_set o k v) k = Some v.
Proof.
  induction o as [|[k0 v0] o IH]; simpl.
  - now rewrite String.eqb_refl.
  - destruct (String.eqb_spec k0 k) as [->|Hne]; simpl.
    + now rewrite String.eqb_refl.
    + destruct (String.eqb_spec k0 k); [contradiction|assumption].
Qed.

Lemma get_set_other o k k' v :
  k <> k' -> obj_get (obj_set o k' v) k = obj_get o k.
Proof.
  intros Hne. induction o as [|[k0 v0] o IH]; simpl.
  - destruct (String.eqb_spec k' k); [congruence|reflexivity].
  - destruct (String.eqb_spec k0 k') as [->|Hne']; simpl.
    + destruct (String.eqb_spec k' k); [congruence|reflexivity].
    + destruct (String.eqb_spec k0 k); [reflexivity|assumption].
Qed.

Lemma get_of_entry o k v :
  NoDup (obj_keys o) -> In (k, v) o -> obj_get o k = Some v.
Proof.
  induction o as [|[k0 v0] o IH]; simpl; intros Hnd Hin; [contradiction|].
  inversion Hnd as [|? ? Hnotin Hnd']; subst.
  destruct Hin as [Heq|Hin].
  - inversion Heq; subst. now rewrite String.eqb_refl.
  - destruct (String.eqb_spec k0 k) as [->|Hne].
    + exfalso. apply Hnotin. apply (in_map fst) in Hin. exact Hin.
    + auto.
Qed.

End Facts.

End Object.

(** ** The monad of runs *)

Module Run.

Lemma bind_ret_l {A B : Type} (a : A) (f : A -> M B) : bind (ret a) f = f a.
Proof. unfold bind, ret. now destruct (f a). Qed.

Lemma bind_assoc {A B C : Type} (m : M A) (f : A -> M B) (g : B -> M C) :
  bind (bind m f) g = bind m (fun x => bind (f x) g).
Proof.
  destruct m as [t [a|e]]; simpl; [|reflexivity].
  destruct (f a) as [t1 [b|e]]; simpl; [|reflexivity].
  destruct (g b) as [t2 r]. now rewrite app_assoc.
Qed.

Lemma for_of_app {A S : Type} (body : S -> A -> M S) (xs ys : list A) :
  forall acc,
    for_of body (xs ++ ys) acc =
    bind (for_of body xs acc) (for_of body ys).
Proof.
  induction xs as [|x xs IH]; intros acc.
  - change (for_of body ys acc = bind (ret acc) (for_of body ys)).
    now rewrite bind_ret_l.
  - change (bind (body acc x) (fun acc' => for_of body (xs ++ ys) acc') =
            bind (bind (body acc x) (for_of body xs)) (for_of body ys)).
    rewrite bind_assoc. unfold bind at 1 3.
    destruct (body acc x) as [t [acc'|e]]; [|reflexivity].
    now rewrite IH.
Qed.

(** A computation that returns: its events and its value. *)
Lemma bind_normal {A B : Type} (m : M A) (f : A -> M B) a :
  outcome m = Normal a ->
  bind m f = (trace m ++ trace (f a), outcome (f a)).
Proof.
  destruct m as [t c]. unfold outcome, trace. simpl. intros ->.
  now destruct (f a).
Qed.

End Run.

(** ** The orchestrator *)

Module Orchestrator.

Section Facts.
Context {rt : Runtime}.

Lemma main_step_missing w results key meta :
  truthy_opt (env w (rpcEnv meta)) = false ->
  main_step w results (key, meta) =
  ([], Normal (obj_set results key (missing_env meta))).
Proof.
  unfold main_step, truthy_opt.
  destruct (env w (rpcEnv meta)); [intros ->|]; reflexivity.
Qed.

Lemma main_step_fetch w results key meta rpc :
  env w (rpcEnv meta) = Some rpc ->
  truthy_string rpc = true ->
  let provider :=
    {| provider_url := rpc; provider_endpoint := endpoint w rpc |} in
  exists reading,
    outcome (fetchGasData provider) = Normal reading /\
    main_step w results (key, meta) =
    (trace (fetchGasData provider),
     Normal (obj_set results key reading)).
Proof.
  intros Henv Hrpc provider.
  destruct (Fetcher.fetchGasData_returns provider) as [reading Hr].
  exists reading. split; [assumption|].
  unfold main_step. rewrite Henv, Hrpc.
  change (negb true) with false. cbv iota.
  unfold getProvider. rewrite Run.bind_ret_l.
  fold provider. rewrite (Run.bind_normal _ _ _ Hr).
  unfold ret, trace, outcome. simpl. now rewrite app_nil_r.
Qed.

Lemma main_step_returns w results key meta :
  exists reading,
    outcome (main_step w results (key, meta)) =
      Normal (obj_set results key reading) /\
    forallb is_rpc (trace (main_step w results (key, meta))) = true.
Proof.
  destruct (truthy_opt (env w (rpcEnv meta))) eqn:Henv.
  - unfold truthy_opt in Henv.
    destruct (env w (rpcEnv meta)) as [rpc|] eqn:E; [|discriminate].
    destruct (main_step_fetch w results key meta rpc E Henv)
      as (reading & Hr & ->).
    exists reading. split; [reflexivity|].
    apply forallb_forall. intros ev Hin.
    apply Fetcher.fetchGasData_trace_url in Hin as [req ->]. reflexivity.
  - rewrite (main_step_missing _ _ _ _ Henv). now exists (missing_env meta).
Qed.

(** One turn of the loop, then the rest of it. *)
Lemma loop_cons w acc key meta registry :
  exists reading,
    outcome (main_step w acc (key, meta)) =
      Normal (obj_set acc key reading) /\
    for_of (main_step w) ((key, meta) :: registry) acc =
    (trace (main_step w acc (key, meta)) ++
       trace (for_of (main_step w) registry (obj_set acc key reading)),
     outcome (for_of (main_step w) registry (obj_set acc key reading))).
Proof.
  destruct (main_step_returns w acc key meta) as (reading & Hr & _).
  exists reading. split; [assumption|].
  simpl. now rewrite (Run.bind_normal _ _ _ Hr).
Qed.

Lemma loop_returns w registry : forall acc,
  exists results, outcome (for_of (main_step w) registry acc) = Normal results.
Proof.
  induction registry as [|[key meta] registry IH]; intros acc.
  - now exists acc.
  - destruct (loop_cons w acc key meta registry) as (reading & _ & ->).
    apply IH.
Qed.

Lemma loop_trace w registry : forall acc,
  forallb is_rpc (trace (for_of (main_step w) registry acc)) = true.
Proof.
  induction registry as [|[key meta] registry IH]; intros acc.
  - reflexivity.
  - destruct (loop_cons w acc key meta registry) as (reading & _ & ->).
    destruct (main_step_returns w acc key meta) as (_ & _ & Ht).
    change (forallb is_rpc
              (trace (main_step w acc (key, meta)) ++
               trace (for_of (main_step w) registry
                        (obj_set acc key reading))) = true).
    rewrite forallb_app, Ht. apply IH.
Qed.

Lemma loop_keys_in w registry : forall acc results,
  outcome (for_of (main_step w) registry acc) = Normal results ->
  forall k,
    In k (obj_keys results) <->
    In k (obj_keys acc) \/ In k (obj_keys registry).
Proof.
  induction registry as [|[key meta] registry IH]; intros acc results.
  - simpl. intros [= <-] k. tauto.
  - destruct (loop_cons w acc key meta registry) as (reading & _ & ->).
    intros H k. change (outcome (for_of (main_step w) registry
                                  (obj_set acc key reading)) = Normal results)
      in H.
    rewrite (IH _ _ H k), Object.keys_set_in. simpl.
    intuition (subst; auto).
Qed.

Lemma loop_keys w registry : forall acc results,
  outcome (for_of (main_step w) registry acc) = Normal results ->
  NoDup (obj_keys acc ++ obj_keys registry) ->
  obj_keys results = obj_keys acc ++ obj_keys registry.
Proof.
  induction registry as [|[key meta] registry IH]; intros acc results.
  - simpl. intros [= <-] _. now rewrite app_nil_r.
  - destruct (loop_cons w acc key meta registry) as (reading & _ & ->).
    intros H Hnd. change (outcome (for_of (main_step w) registry
                                    (obj_set acc key reading)) = Normal results)
      in H. simpl in Hnd.
    assert (Hfresh : ~ In key (obj_keys acc)).
    { apply NoDup_remove_2 in Hnd. intros Hin. apply Hnd.
      apply in_or_app. now left. }
    pose proof (Object.keys_set_fresh acc key reading Hfresh) as Hk.
    rewrite (IH _ _ H); rewrite Hk, <- app_assoc; [reflexivity|assumption].
Qed.

Lemma loop_get w registry : forall acc results,
  outcome (for_of (main_step w) registry acc) = Normal results ->
  forall k, ~ In k (obj_keys registry) -> obj_get results k = obj_get acc k.
Proof.
  induction registry as [|[key meta] registry IH]; intros acc results.
  - simpl. now intros [= <-] k _.
  - destruct (loop_cons w acc key meta registry) as (reading & _ & ->).
    intros H k Hnin. change (outcome (for_of (main_step w) registry
                                       (obj_set acc key reading)) = Normal results)
      in H. simpl in Hnin.
    rewrite (IH _ _ H k) by tauto.
    apply Object.get_set_other. intros ->. tauto.
Qed.

Lemma CHAINS_NoDup : NoDup (obj_keys CHAINS).
Proof.
  repeat constructor; simpl; intuition discriminate.
Qed.

(** The loop always completes, so the report is always assembled. *)
Lemma assemble_returns w :
  exists results,
    outcome (collectReadings w CHAINS) = Normal results /\
    assemble w =
    (trace (collectReadings w CHAINS),
     Normal (buildReport (clock w) results)).
Proof.
  destruct (loop_returns w CHAINS []) as [results Hr].
  exists results. split; [exact Hr|].
  unfold assemble. fold (collectReadings w CHAINS) in Hr.
  rewrite (Run.bind_normal _ _ _ Hr). simpl. now rewrite app_nil_r.
Qed.

Lemma deliver_write_fails w report e :
  writeFileSync w (report_filename w (timestamp report))
                  (JSON_stringify report) = Throw e ->
  deliver w report =
  ([WriteFile (report_filename w (timestamp report)) (JSON_stringify report)],
   Throw e).
Proof.
  intros Hw. unfold deliver, perform, bind. now rewrite Hw.
Qed.

Lemma deliver_webhook_fails w report webhook e :
  writeFileSync w (report_filename w (timestamp report))
                  (JSON_stringify report) = Normal tt ->
  env w "WEBHOOK_URL" = Some webhook ->
  truthy_string webhook = true ->
  axios_post w webhook report = Throw e ->
  deliver w report =
  ([WriteFile (report_filename w (timestamp report)) (JSON_stringify report);
    ConsoleLog [LogStr "Wrote";
                LogStr (report_filename w (timestamp report))];
    Post webhook report;
    ConsoleWarn [LogStr "Webhook post failed:"; message_or_self e];
    ConsoleLog [LogStr (JSON_stringify report)]],
   Normal tt).
Proof.
  intros Hw Henv Hurl Hpost.
  unfold deliver, perform, bind, try_catch.
  now rewrite Hw, Henv, Hurl, Hpost.
Qed.

Lemma main_unfold w report :
  outcome (assemble w) = Normal report ->
  main w =
  (trace (assemble w) ++ trace (deliver w report),
   outcome (deliver w report)).
Proof. intros H. unfold main. now rewrite (Run.bind_normal _ _ _ H). Qed.

Lemma assemble_trace w : forallb is_rpc (trace (assemble w)) = true.
Proof.
  destruct (assemble_returns w) as (results & _ & ->).
  apply loop_trace.
Qed.

End Facts.

End Orchestrator.

(* ================================================================== *)
(** * Part III: the claims of the specification *)
(* ================================================================== *)

Module Claims.

(** C1. For every readings map the ranker looks only at the entries whose
    error field is absent (not truthy, which is how the code tests it),
    scores each as [gas_price_gwei + priority_fee_gwei], with 0 for an
    absent priority fee, and returns a chain whose score no such entry is
    below (is at most every such score, for scores that are numbers). For
    [{A: score 10, B: score 5, C: error}] it returns B; when every entry
    has an error it returns none. *)
Theorem chooseBestChain_minimum :
  (forall chains,
     chooseBestChain chains =
     chooseBestChain (filter (fun e => negb (has_error (snd e))) chains)) /\
  (forall val, error val = None -> has_error val = false) /\
  (forall val msg,
     error val = Some msg -> msg <> "" -> has_error val = true) /\
  (forall g p e,
     total_of (mkGasReading (Some g) (Some p) e) = PrimFloat.add g p) /\
  (forall g e,
     total_of (mkGasReading (Some g) None e) = PrimFloat.add g 0) /\
  (forall chains,
     match chooseBestChain chains with
     | Some k =>
         exists v,
           In (k, v) chains /\ has_error v = false /\
           forall k' v',
             In (k', v') chains -> has_error v' = false ->
             PrimFloat.ltb (total_of v') (total_of v) = false /\
             (PrimFloat.is_nan (total_of v) = false ->
              PrimFloat.is_nan (total_of v') = false ->
              PrimFloat.leb (total_of v) (total_of v') = true)
     | None => forall k v, In (k, v) chains -> has_error v = true
     end) /\
  chooseBestChain Sample.readings_ABC = Some "B" /\
  (forall chains,
     (forall k v, In (k, v) chains -> has_error v = true) ->
     chooseBestChain chains = None).
Proof.
  split; [|split; [|split; [|split; [|split; [|split; [|split]]]]]].
  - intros chains. unfold chooseBestChain.
    now rewrite <- Ranker.loop_skips_errors.
  - intros val H. unfold has_error. now rewrite H.
  - intros val msg H Hne. unfold has_error. rewrite H. simpl.
    unfold truthy_string. now destruct (String.eqb_spec msg "").
  - reflexivity.
  - reflexivity.
  - intros chains. unfold chooseBestChain.
    pose proof (Ranker.chooseBestChain_best_of chains) as Inv.
    destruct (chooseBestChain_loop chains None) as [b|]; simpl in Inv.
    + destruct Inv as (pre & v & post & -> & Hv & Hs & Hpre & Hpost).
      exists v. split; [apply in_or_app; right; now left|].
      split; [assumption|]. rewrite <- Hs.
      assert (L : forall k' v',
                 In (k', v') (pre ++ (chain b, v) :: post) ->
                 has_error v' = false ->
                 PrimFloat.ltb (total_of v') (score b) = false).
      { intros k' v' Hin Hok. apply in_app_or in Hin as [Hin|[Heq|Hin]].
        - now apply (Hpre k' v').
        - inversion Heq; subst. rewrite Hs. apply JsNumber.ltb_irrefl.
        - now apply (Hpost k' v'). }
      intros k' v' Hin Hok. split; [now apply (L k' v')|].
      intros N N'. apply JsNumber.not_ltb_leb; auto. now apply (L k' v').
    + exact Inv.
  - vm_compute. reflexivity.
  - intros chains Hall. unfold chooseBestChain.
    pose proof (Ranker.chooseBestChain_best_of chains) as Inv.
    destruct (chooseBestChain_loop chains None) as [b|]; simpl in Inv;
      [|reflexivity].
    destruct Inv as (pre & v & post & -> & Hv & _).
    rewrite (Hall (chain b) v) in Hv; [discriminate|].
    apply in_or_app. right. now left.
Qed.

(** C4. When several entries without error share the minimum score, the
    ranker returns the first of them in iteration order: the entry it
    returns is a minimum and no entry before it has an equal score. An
    entry replaces the current best only when its score is strictly lower,
    so an equal score leaves the best in place; for
    [{A: score 7, B: score 7}] the result is A. The result is a function
    of the input. *)
Theorem chooseBestChain_first_seen :
  (forall chains k,
     chooseBestChain chains = Some k ->
     exists pre v post,
       chains = pre ++ (k, v) :: post /\
       has_error v = false /\
       (forall k' v',
          In (k', v') chains -> has_error v' = false ->
          PrimFloat.ltb (total_of v') (total_of v) = false) /\
       (forall k' v',
          In (k', v') pre -> has_error v' = false ->
          PrimFloat.eqb (total_of v') (total_of v) = false)) /\
  (forall b key val,
     chooseBestChain_step (Some b) (key, val) <> Some b ->
     has_error val = false /\
     PrimFloat.ltb (total_of val) (score b) = true /\
     chooseBestChain_step (Some b) (key, val) =
       Some {| chain := key; score := total_of val |}) /\
  (forall b key val,
     PrimFloat.eqb (total_of val) (score b) = true ->
     chooseBestChain_step (Some b) (key, val) = Some b) /\
  chooseBestChain Sample.readings_tie = Some "A" /\
  (forall chains chains',
     chains = chains' -> chooseBestChain chains = chooseBestChain chains').
Proof.
  split; [|split; [|split; [|split]]].
  - intros chains k. unfold chooseBestChain.
    pose proof (Ranker.chooseBestChain_best_of chains) as Inv.
    destruct (chooseBestChain_loop chains None) as [b|]; simpl in Inv;
      [|discriminate].
    intros [= <-].
    destruct Inv as (pre & v & post & -> & Hv & Hs & Hpre & Hpost).
    exists pre, v, post. rewrite <- Hs.
    split; [reflexivity|]. split; [assumption|]. split.
    + intros k' v' Hin Hok. apply in_app_or in Hin as [Hin|[Heq|Hin]].
      * now apply (Hpre k' v').
      * inversion Heq; subst. rewrite Hs. apply JsNumber.ltb_irrefl.
      * now apply (Hpost k' v').
    + intros k' v' Hin Hok. now apply (Hpre k' v').
  - intros b key val. unfold chooseBestChain_step.
    destruct (has_error val); [congruence|].
    destruct (PrimFloat.ltb (total_of val) (score b)); [auto|congruence].
  - intros b key val E. unfold chooseBestChain_step.
    rewrite (JsNumber.eqb_not_ltb _ _ E). now destruct (has_error val).
  - vm_compute. reflexivity.
  - now intros chains chains' ->.
Qed.

(** C10. The ranker returns either none or a key of the input map whose
    reading has no truthy error field; so the best chain of a report is a
    configured chain whose reading in that report has no error. *)
Theorem chooseBestChain_sound :
  (forall chains,
     chooseBestChain chains = None \/
     exists k v,
       chooseBestChain chains = Some k /\
       In (k, v) chains /\ has_error v = false) /\
  (forall (rt : Runtime) (w : World) report k,
     outcome (assemble w) = Normal report ->
     best_chain report = Some k ->
     In k (obj_keys CHAINS) /\
     exists v, obj_get (chains report) k = Some v /\ has_error v = false).
Proof.
  assert (Sound : forall chains k,
            chooseBestChain chains = Some k ->
            exists v, In (k, v) chains /\ has_error v = false).
  { intros chains k. unfold chooseBestChain.
    pose proof (Ranker.chooseBestChain_best_of chains) as Inv.
    destruct (chooseBestChain_loop chains None) as [b|]; simpl in Inv;
      [|discriminate].
    intros [= <-]. destruct Inv as (pre & v & post & -> & Hv & _).
    exists v. split; [|assumption]. apply in_or_app. right. now left. }
  split.
  - intros chains. destruct (chooseBestChain chains) as [k|] eqn:E;
      [right|now left].
    destruct (Sound _ _ E) as (v & Hin & Hv). now exists k, v.
  - intros rt w report k Hrep Hbest.
    destruct (Orchestrator.assemble_returns w) as (results & Hres & Heq).
    rewrite Heq in Hrep. injection Hrep as <-. simpl in Hbest.
    destruct (Sound _ _ Hbest) as (v & Hin & Hv).
    pose proof (Orchestrator.loop_keys w CHAINS [] results Hres
                  Orchestrator.CHAINS_NoDup) as Hkeys.
    change (obj_keys results = obj_keys CHAINS) in Hkeys. split.
    + rewrite <- Hkeys. apply (in_map fst) in Hin. exact Hin.
    + exists v. split; [|assumption]. simpl.
      apply Object.get_of_entry; [|assumption].
      rewrite Hkeys. apply Orchestrator.CHAINS_NoDup.
Qed.

Section WithRuntime.
Context {rt : Runtime}.

(** C2. Whatever the environment and the endpoints do, the run assembles
    a report, and the keys of its [chains] map are the chain ids of
    [CHAINS], each once and in the same order; the loop gives every
    registry the same set of keys. *)
Theorem report_has_every_chain (w : World) :
  (exists report,
     outcome (assemble w) = Normal report /\
     trace (main w) = trace (assemble w) ++ trace (deliver w report) /\
     obj_keys (chains report) = obj_keys CHAINS /\
     forall k, In k (obj_keys (chains report)) <-> In k (obj_keys CHAINS)) /\
  (forall registry,
     exists results,
       outcome (collectReadings w registry) = Normal results /\
       forall k, In k (obj_keys results) <-> In k (obj_keys registry)).
Proof.
  split.
  - destruct (Orchestrator.assemble_returns w) as (results & Hres & Heq).
    exists (buildReport (clock w) results).
    assert (Hout : outcome (assemble w) =
                   Normal (buildReport (clock w) results))
      by now rewrite Heq.
    split; [exact Hout|]. split.
    + now rewrite (Orchestrator.main_unfold w _ Hout).
    + pose proof (Orchestrator.loop_keys w CHAINS [] results Hres
                    Orchestrator.CHAINS_NoDup) as Hkeys.
      change (obj_keys results = obj_keys CHAINS) in Hkeys.
      simpl chains. split; [exact Hkeys|].
      intros k. now rewrite Hkeys.
  - intros registry.
    destruct (Orchestrator.loop_returns w registry []) as [results Hres].
    exists results. split; [exact Hres|]. intros k.
    rewrite (Orchestrator.loop_keys_in w registry [] results Hres k).
    simpl. tauto.
Qed.

(** C5. For a chain of the registry whose RPC variable is unset (or
    empty), the turn of the loop performs no event and stores the reading
    [{ error: "Missing env ..." }]: the error is populated and neither
    numeric field is. The loop goes on: its events are those of the chains
    before followed by those of the chains after, every later chain gets a
    reading, and the final reading of the chain is that error. *)
Theorem missing_rpc_is_error_reading (w : World) pre key meta post :
  truthy_opt (env w (rpcEnv meta)) = false ->
  ~ In key (obj_keys post) ->
  (forall results,
     main_step w results (key, meta) =
     ([], Normal (obj_set results key (missing_env meta)))) /\
  error (missing_env meta) = Some ("Missing env " ++ rpcEnv meta)%string /\
  has_error (missing_env meta) = true /\
  gas_price_gwei (missing_env meta) = None /\
  priority_fee_gwei (missing_env meta) = None /\
  exists before results,
    outcome (collectReadings w pre) = Normal before /\
    outcome (collectReadings w (pre ++ (key, meta) :: post)) =
      Normal results /\
    trace (collectReadings w (pre ++ (key, meta) :: post)) =
      trace (collectReadings w pre) ++
      trace (for_of (main_step w) post
               (obj_set before key (missing_env meta))) /\
    obj_get results key = Some (missing_env meta) /\
    forall k, In k (obj_keys post) -> In k (obj_keys results).
Proof.
  intros Henv Hfresh.
  split; [intros results; now apply Orchestrator.main_step_missing|].
  do 4 (split; [reflexivity|]).
  destruct (Orchestrator.loop_returns w pre []) as [before Hpre].
  destruct (Orchestrator.loop_returns w post
              (obj_set before key (missing_env meta))) as [results Hpost].
  exists before, results.
  assert (Heq : collectReadings w (pre ++ (key, meta) :: post) =
                (trace (collectReadings w pre) ++
                 trace (for_of (main_step w) post
                          (obj_set before key (missing_env meta))),
                 Normal results)).
  { unfold collectReadings. rewrite Run.for_of_app.
    rewrite (Run.bind_normal _ _ _ Hpre). rewrite <- Hpost.
    change (for_of (main_step w) ((key, meta) :: post) before)
      with (bind (main_step w before (key, meta)) (for_of (main_step w) post)).
    rewrite (Orchestrator.main_step_missing _ _ _ _ Henv).
    change (@pair (list Event) (Completion (Obj GasReading)) []
              (Normal (obj_set before key (missing_env meta))))
      with (ret (obj_set before key (missing_env meta))).
    now rewrite Run.bind_ret_l. }
  split; [exact Hpre|]. rewrite Heq.
  split; [reflexivity|]. split; [reflexivity|]. split.
  - rewrite (Orchestrator.loop_get w post _ _ Hpost key Hfresh).
    apply Object.get_set_same.
  - intros k Hin.
    apply (Orchestrator.loop_keys_in w post _ _ Hpost k). now right.
Qed.

(** C6. When the gas-price call succeeds and the priority-fee estimate
    fails in any of its ways (a call throws, the result has no usable
    rewards, a reward is no number, no block reports one), [fetchGasData]
    returns the gas price in gwei, no priority fee and no error. *)
Theorem priority_failure_is_not_an_error provider gasPrice :
  getGasPrice (provider_endpoint provider) = Normal gasPrice ->
  estimate_fails provider ->
  outcome (fetchGasData provider) =
  Normal {| gas_price_gwei := Some (parseFloat (formatUnits_gwei gasPrice));
            priority_fee_gwei := None;
            error := None |}.
Proof.
  intros Hgas Hfail.
  rewrite (Fetcher.fetchGasData_primary_ok _ _ Hgas).
  now rewrite (Fetcher.estimate_fails_none _ Hfail).
Qed.

(** C7. When [fetchGasData] returns a priority fee, it asked
    [eth_feeHistory] for [hexValue(5)] blocks ending at
    [hexValue(latest)], [latest] being the block number it had just
    queried, with reward percentiles [[50]]; and the fee is
    [parseFloat] of the decimal [avg / 10^9], where [avg] is the sum of
    the rewards divided by their number, truncated, and the rewards are
    those of the blocks [r] with [r && r[0]] truthy. *)
Theorem priority_fee_is_mean_reward provider reading pf :
  outcome (fetchGasData provider) = Normal reading ->
  priority_fee_gwei reading = Some pf ->
  exists latest h_count h_latest res items rewards,
    getBlockNumber (provider_endpoint provider) = Normal latest /\
    hexValue 5 = Normal h_count /\
    hexValue latest = Normal h_latest /\
    In (Rpc (provider_url provider)
          (Send "eth_feeHistory"
             [JStr h_count; JStr h_latest; JArr [JNum 50%float]]))
       (trace (fetchGasData provider)) /\
    send (provider_endpoint provider) "eth_feeHistory"
         [JStr h_count; JStr h_latest; JArr [JNum 50%float]] = Normal res /\
    get_reward res = JArr items /\
    map (fun r => BigNumber_from (get_index0 r))
        (filter (fun r => truthy r && truthy (get_index0 r)) items) =
      map Normal rewards /\
    rewards <> [] /\
    pf = parseFloat
           (Qmake (Z.quot (fold_left Z.add rewards 0%Z)
                          (Z.of_nat (List.length rewards)))
                  1000000000).
Proof.
  intros Hout Hpf.
  destruct (getGasPrice (provider_endpoint provider)) as [gasPrice|e]
    eqn:Hgas.
  - destruct (outcome (estimatePriorityFee provider)) as [x|e] eqn:Hest.
    + rewrite (Fetcher.fetchGasData_success _ _ _ Hgas Hest) in *.
      injection Hout as <-. simpl in Hpf. subst x.
      destruct (Fetcher.estimate_some _ _ Hest)
        as (latest & hc & hl & res & items & mapped &
            Hb & Hc & Hl & Hs & Ht & Hr & Hm & Hne & ->).
      exists latest, hc, hl, res, items, (filter_Boolean mapped).
      do 3 (split; [assumption|]). split.
      { unfold trace at 1. simpl fst. rewrite Ht. right. right. now left. }
      split; [exact Hs|]. split; [exact Hr|]. split.
      { now apply Fetcher.rewards_of_reporting_blocks. }
      split; [exact Hne|reflexivity].
    + rewrite (Fetcher.fetchGasData_primary_ok _ _ Hgas), Hest in Hout.
      injection Hout as <-. discriminate.
  - rewrite (Fetcher.fetchGasData_primary_fails _ _ Hgas) in Hout.
    injection Hout as <-. discriminate.
Qed.

(** C8. In a run with a webhook configured whose post fails, if a post
    was attempted then the report file had been written, successfully and
    under [REPORTS_DIR], before it; a warning follows the post; and the
    process exits with code 0. *)
Theorem webhook_failure_is_not_fatal (w : World) report webhook e :
  outcome (assemble w) = Normal report ->
  env w "WEBHOOK_URL" = Some webhook ->
  truthy_string webhook = true ->
  axios_post w webhook report = Throw e ->
  (exists url body, In (Post url body) (fst (run w))) ->
  let filename := report_filename w (timestamp report) in
  let data := JSON_stringify report in
  writeFileSync w filename data = Normal tt /\
  (exists file, filename = path_join (REPORTS_DIR w) file) /\
  fst (run w) =
    trace (assemble w) ++
    [WriteFile filename data;
     ConsoleLog [LogStr "Wrote"; LogStr filename];
     Post webhook report;
     ConsoleWarn [LogStr "Webhook post failed:"; message_or_self e];
     ConsoleLog [LogStr data]] /\
  snd (run w) = 0%Z.
Proof.
  intros Hrep Henv Hurl Hpost Hatt filename data.
  destruct (writeFileSync w filename data) as [[]|ew] eqn:Hw.
  - split; [reflexivity|]. split; [eexists; reflexivity|].
    unfold run. rewrite (Orchestrator.main_unfold w report Hrep).
    rewrite (Orchestrator.deliver_webhook_fails w report webhook e
               Hw Henv Hurl Hpost).
    split; reflexivity.
  - exfalso. destruct Hatt as (url & body & Hin).
    unfold run in Hin. rewrite (Orchestrator.main_unfold w report Hrep) in Hin.
    rewrite (Orchestrator.deliver_write_fails w report ew Hw) in Hin.
    simpl in Hin. rewrite <- app_assoc in Hin.
    apply in_app_or in Hin as [Hin|Hin].
    + pose proof (Orchestrator.assemble_trace w) as Ht.
      rewrite forallb_forall in Ht. specialize (Ht _ Hin). discriminate.
    + simpl in Hin. destruct Hin as [Hin|[Hin|[]]]; discriminate.
Qed.

End WithRuntime.

(** The sample run with [RPC_BASE] unset: base gets the error reading and
    the two other chains are still fetched. *)
Lemma missing_rpc_is_error_reading_witness :
  truthy_opt (env Sample.world_partial "RPC_BASE") = false /\
  exists results,
    outcome (@collectReadings Sample.runtime Sample.world_partial CHAINS) =
      Normal results /\
    obj_get results "base" =
      Some (Sample.failed "Missing env RPC_BASE") /\
    In "optimism" (obj_keys results) /\ In "arbitrum" (obj_keys results).
Proof.
  split; [reflexivity|].
  destruct (@missing_rpc_is_error_reading Sample.runtime Sample.world_partial
              [] "base" {| name := "Base"; rpcEnv := "RPC_BASE" |}
              (tl CHAINS))
    as (_ & _ & _ & _ & _ & before & results & _ & Hres & _ & Hget & Hkeys).
  - reflexivity.
  - simpl. intuition discriminate.
  - exists results. split; [exact Hres|]. split; [exact Hget|].
    split; apply Hkeys; simpl; auto.
Defined.

(** An endpoint without [eth_feeHistory]: 6 gwei, no priority fee, no
    error. *)
Lemma priority_failure_is_not_an_error_witness :
  outcome (@fetchGasData Sample.runtime
             {| provider_url := "https://optimism.example";
                provider_endpoint := Sample.endpoint_gas_only 6000000000 |}) =
  Normal (Sample.reading 6 None).
Proof.
  apply (@priority_failure_is_not_an_error Sample.runtime
           {| provider_url := "https://optimism.example";
              provider_endpoint := Sample.endpoint_gas_only 6000000000 |}
           6000000000%Z).
  - reflexivity.
  - apply (@fails_send Sample.runtime _ 1000%Z "0x5" "0x3e8"
             (mkThrown (Some "the method eth_feeHistory does not exist")
                       "Error: the method eth_feeHistory does not exist"));
      reflexivity.
Defined.

(** Five blocks that each report 0x47868c00 wei: the fee is 1.2 gwei. *)
Lemma priority_fee_is_mean_reward_witness :
  exists rewards,
    rewards = [1200000000; 1200000000; 1200000000; 1200000000; 1200000000]%Z /\
    Some 1.2%float =
    Some (Sample.parseFloat_small
            (Qmake (Z.quot (fold_left Z.add rewards 0%Z)
                           (Z.of_nat (List.length rewards)))
                   1000000000)).
Proof.
  destruct (@priority_fee_is_mean_reward Sample.runtime
              {| provider_url := "https://base.example";
                 provider_endpoint :=
                   Sample.endpoint_with 12000000000 "0x47868c00" |}
              (Sample.reading 12 (Some 1.2%float)) 1.2%float)
    as (latest & hc & hl & res & items & rewards &
        Hb & Hc & Hl & _ & Hs & Hr & Hm & _ & Hpf).
  - vm_compute. reflexivity.
  - reflexivity.
  - exists rewards. split; [|exact (f_equal Some Hpf)].
    simpl in Hs. injection Hs as <-. simpl in Hr. injection Hr as <-.
    revert Hm. vm_compute.
    destruct rewards as [|r1 [|r2 [|r3 [|r4 [|r5 [|]]]]]];
      try discriminate.
    intros [= -> -> -> -> ->]. reflexivity.
Defined.

(** The sample run whose webhook refuses the connection exits with 0,
    having written the report before the post. *)
Lemma webhook_failure_is_not_fatal_witness :
  snd (@run Sample.runtime Sample.world_partial) = 0%Z /\
  exists before after,
    fst (@run Sample.runtime Sample.world_partial) =
    before ++
    WriteFile "/app/reports/report-2025-09-28T13-00-00-000Z.json"
      "2025-09-28T13:00:00.000Z Send your transactions on optimism now for lowest fees."
    :: after.
Proof.
  destruct (Orchestrator.assemble_returns (rt := Sample.runtime)
              Sample.world_partial) as (results & Hres & Heq).
  assert (Hout : outcome (@assemble Sample.runtime Sample.world_partial) =
                 Normal (buildReport (clock Sample.world_partial) results))
    by now rewrite Heq.
  assert (Hval : results =
                 [("base", Sample.failed "Missing env RPC_BASE");
                  ("optimism", Sample.reading 6 (Some 0.8%float));
                  ("arbitrum", Sample.reading 9 (Some 1%float))]).
  { revert Hres. vm_compute. now intros [= <-]. }
  destruct (@webhook_failure_is_not_fatal Sample.runtime Sample.world_partial
              (buildReport (clock Sample.world_partial) results)
              "https://hook.example"
              (mkThrown (Some "connect ECONNREFUSED")
                        "Error: connect ECONNREFUSED"))
    as (_ & _ & Htrace & Hexit).
  - exact Hout.
  - reflexivity.
  - reflexivity.
  - reflexivity.
  - eexists. eexists. vm_compute. do 8 right. left. reflexivity.
  - split; [exact Hexit|].
    rewrite Htrace. eexists. eexists. subst results. reflexivity.
Defined.

(** C3. The recommendation names the best chain by its key in [CHAINS],
    not by its [name]: with base at 12 + 1.2 gwei, optimism at 6 + 0.8
    and arbitrum at 9 + 1.0 the best chain is [optimism], whose name is
    Optimism, and the sentence reads "... on optimism now ...". Without a
    best chain the sentence is "No recommendation (insufficient data).". *)
Theorem recommendation_names_chain_key :
  (exists report,
     outcome (@assemble Sample.runtime Sample.world_all) = Normal report /\
     best_chain report = Some "optimism" /\
     option_map name (obj_get CHAINS "optimism") = Some "Optimism" /\
     recommendation report =
       "Send your transactions on optimism now for lowest fees." /\
     recommendation report <>
       "Send your transactions on Optimism now for lowest fees.") /\
  (forall ts results k,
     chooseBestChain results = Some k ->
     truthy_string k = true ->
     recommendation (buildReport ts results) =
       ("Send your transactions on " ++ k ++ " now for lowest fees.")%string) /\
  (forall ts results,
     chooseBestChain results = None ->
     recommendation (buildReport ts results) =
       "No recommendation (insufficient data).").
Proof.
  split; [|split].
  - eexists. split; [vm_compute; reflexivity|].
    split; [reflexivity|]. split; [reflexivity|].
    split; [reflexivity|discriminate].
  - intros ts results k Hbest Hk. unfold buildReport. simpl.
    rewrite Hbest. simpl. now rewrite Hk.
  - intros ts results Hbest. unfold buildReport. simpl. now rewrite Hbest.
Qed.

End Claims.

(* ================================================================== *)
(** * Part IV: further properties of the code *)
(* ================================================================== *)

(** ** Supporting facts *)

Module Support.

(** *** Numbers that are not numbers *)

Lemma SFcompare_refl (a : spec_float) :
  a <> S754_nan -> SFcompare a a = Some Eq.
Proof.
  destruct a as [[]|[]| |[] m e]; simpl; intros H; try congruence;
    rewrite Z.compare_refl;
    change (Pos.compare_cont Eq m m) with (Pos.compare m m);
    now rewrite Pos.compare_refl.
Qed.

Lemma is_nan_true_Prim2SF (x : float) :
  PrimFloat.is_nan x = true -> Prim2SF x = S754_nan.
Proof.
  unfold PrimFloat.is_nan. rewrite eqb_spec. unfold SFeqb. intros H.
  destruct (Prim2SF x) as [s|s| |s m e] eqn:E; [| |reflexivity|];
    rewrite SFcompare_refl in H; discriminate.
Qed.

(** [NaN] is below nothing and nothing is below it. *)
Lemma nan_not_ltb (x y : float) :
  PrimFloat.is_nan x = true ->
  PrimFloat.ltb x y = false /\ PrimFloat.ltb y x = false.
Proof.
  intros H. apply is_nan_true_Prim2SF in H.
  rewrite !ltb_spec. unfold SFltb. rewrite H. split; [reflexivity|].
  now destruct (Prim2SF y).
Qed.

(** *** The ranker's loop *)

Lemma loop_all_errors chains : forall best,
  (forall k v, In (k, v) chains -> has_error v = true) ->
  chooseBestChain_loop chains best = best.
Proof.
  induction chains as [|[key val] chains IH]; intros best Hall;
    [reflexivity|].
  unfold chooseBestChain_loop in *. simpl.
  rewrite (Hall key val) by now left.
  apply IH. intros k v Hin. apply (Hall k v). now right.
Qed.

Lemma loop_nan_best chains : forall b,
  PrimFloat.is_nan (score b) = true ->
  chooseBestChain_loop chains (Some b) = Some b.
Proof.
  induction chains as [|[key val] chains IH]; intros b Hnan;
    [reflexivity|].
  unfold chooseBestChain_loop in *. simpl.
  destruct (has_error val); [now apply IH|].
  destruct (nan_not_ltb (score b) (total_of val) Hnan) as [_ ->].
  now apply IH.
Qed.

Lemma loop_app xs ys best :
  chooseBestChain_loop (xs ++ ys) best =
  chooseBestChain_loop ys (chooseBestChain_loop xs best).
Proof. unfold chooseBestChain_loop. apply fold_left_app. Qed.

(** *** Sums of rewards *)

Lemma sum_shift (l : list Z) : forall a,
  fold_left Z.add l a = (a + fold_left Z.add l 0)%Z.
Proof.
  induction l as [|x l IH]; intros a; simpl; [lia|].
  rewrite (IH (a + x)%Z), (IH x). lia.
Qed.

Lemma sum_bounds (lo hi : Z) (l : list Z) :
  (forall r, In r l -> lo <= r <= hi)%Z ->
  (lo * Z.of_nat (List.length l) <= fold_left Z.add l 0
   <= hi * Z.of_nat (List.length l))%Z.
Proof.
  induction l as [|x l IH]; intros H; [simpl; lia|].
  assert (Hx : (lo <= x <= hi)%Z) by (apply H; now left).
  assert (Hl : forall r, In r l -> (lo <= r <= hi)%Z)
    by (intros r Hr; apply H; now right).
  specialize (IH Hl).
  change (fold_left Z.add (x :: l) 0%Z) with (fold_left Z.add l x).
  rewrite sum_shift.
  change (List.length (x :: l)) with (S (List.length l)).
  rewrite Nat2Z.inj_succ. lia.
Qed.

Lemma length_pos {A : Type} (l : list A) :
  l <> [] -> (0 < Z.of_nat (List.length l))%Z.
Proof. destruct l; [congruence|simpl; lia]. Qed.

(** *** Mapping over the rewards *)

Section WithRuntime.
Context {rt : Runtime}.

(** One reward that [BigNumber.from] rejects makes the whole map throw. *)
Lemma array_map_throws items r e :
  In r items ->
  truthy r && truthy (get_index0 r) = true ->
  BigNumber_from (get_index0 r) = Throw e ->
  exists e', array_map reward_of items = Throw e'.
Proof.
  intros Hin Hrep Hbad.
  induction items as [|x items IH]; [contradiction|]. simpl.
  destruct (reward_of x) as [y|ex] eqn:Hx; [|eauto].
  destruct Hin as [->|Hin].
  - unfold reward_of in Hx. rewrite Hrep, Hbad in Hx. discriminate.
  - destruct (IH Hin) as [e' ->]. eauto.
Qed.

(** *** The calls of one fetch *)

Ltac run_monad :=
  unfold call_getGasPrice, call_getBlockNumber, call_send, perform, lift,
         bind, try_catch, ret, outcome, trace in *; simpl in *.

Lemma fetch_trace_shape provider :
  let url := provider_url provider in
  let ep := provider_endpoint provider in
  (exists e,
     getGasPrice ep = Throw e /\
     trace (fetchGasData provider) = [Rpc url GetGasPrice]) \/
  (exists gasPrice,
     getGasPrice ep = Normal gasPrice /\
     (trace (fetchGasData provider) =
        [Rpc url GetGasPrice; Rpc url GetBlockNumber] \/
      exists latest h_count h_latest,
        getBlockNumber ep = Normal latest /\
        hexValue 5 = Normal h_count /\
        hexValue latest = Normal h_latest /\
        trace (fetchGasData provider) =
          [Rpc url GetGasPrice; Rpc url GetBlockNumber;
           Rpc url (Send "eth_feeHistory"
                      (feeHistory_params h_count h_latest))])).
Proof.
  intros url ep. subst url ep.
  unfold fetchGasData, estimatePriorityFee. run_monad.
  destruct (getGasPrice (provider_endpoint provider)) as [gasPrice|e];
    simpl; [right; exists gasPrice; split; [reflexivity|]|left; eauto].
  destruct (getBlockNumber (provider_endpoint provider)) as [latest|]
    eqn:Hb; simpl; [|now left].
  destruct (hexValue 5) as [hc|] eqn:Hc; simpl; [|now left].
  destruct (hexValue latest) as [hl|] eqn:Hl; simpl; [|now left].
  right. exists latest, hc, hl.
  do 3 (split; [first [reflexivity|assumption]|]).
  destruct (send (provider_endpoint provider) "eth_feeHistory"
              (feeHistory_params hc hl)) as [res|]; simpl; [|reflexivity].
  destruct (truthy res && truthy (get_reward res) &&
            length_truthy (get_reward res)); simpl; [|reflexivity].
  destruct (js_map reward_of (get_reward res)) as [mapped|]; simpl;
    [|reflexivity].
  destruct (filter_Boolean mapped); reflexivity.
Qed.


(** *** One turn of the orchestrator's loop *)

Lemma main_step_cases w acc key meta :
  (truthy_opt (env w (rpcEnv meta)) = false /\
   main_step w acc (key, meta) =
     ([], Normal (obj_set acc key (missing_env meta)))) \/
  (exists rpc reading,
     env w (rpcEnv meta) = Some rpc /\
     truthy_string rpc = true /\
     outcome (fetchGasData {| provider_url := rpc;
                              provider_endpoint := endpoint w rpc |}) =
       Normal reading /\
     main_step w acc (key, meta) =
       (trace (fetchGasData {| provider_url := rpc;
                               provider_endpoint := endpoint w rpc |}),
        Normal (obj_set acc key reading))).
Proof.
  destruct (truthy_opt (env w (rpcEnv meta))) eqn:Henv.
  - right. unfold truthy_opt in Henv.
    destruct (env w (rpcEnv meta)) as [rpc|] eqn:E; [|discriminate].
    destruct (Orchestrator.main_step_fetch w acc key meta rpc E Henv)
      as (reading & Hr & Hstep).
    exists rpc, reading. auto.
  - left. split; [reflexivity|].
    now apply Orchestrator.main_step_missing.
Qed.

Lemma for_of_cons_value w acc key meta registry reading t :
  main_step w acc (key, meta) = (t, Normal (obj_set acc key reading)) ->
  for_of (main_step w) ((key, meta) :: registry) acc =
  (t ++ trace (for_of (main_step w) registry (obj_set acc key reading)),
   outcome (for_of (main_step w) registry (obj_set acc key reading))).
Proof.
  intros H.
  change (bind (main_step w acc (key, meta)) (for_of (main_step w) registry) =
          (t ++ trace (for_of (main_step w) registry
                         (obj_set acc key reading)),
           outcome (for_of (main_step w) registry
                      (obj_set acc key reading)))).
  rewrite H. unfold bind, trace, outcome.
  now destruct (for_of (main_step w) registry (obj_set acc key reading)).
Qed.



Lemma obj_get_in {A : Type} (o : Obj A) k v :
  obj_get o k = Some v -> In (k, v) o.
Proof.
  induction o as [|[k0 v0] o IH]; simpl; [discriminate|].
  destruct (String.eqb_spec k0 k) as [->|Hne].
  - intros [= ->]. now left.
  - intros H. right. now apply IH.
Qed.

(** The reading a chain ends up with is the one its own turn stored. *)
Lemma loop_reading w registry key meta results :
  NoDup (obj_keys registry) ->
  In (key, meta) registry ->
  outcome (collectReadings w registry) = Normal results ->
  exists acc reading,
    outcome (main_step w acc (key, meta)) =
      Normal (obj_set acc key reading) /\
    obj_get results key = Some reading.
Proof.
  intros Hnd Hin Hres.
  apply in_split in Hin as (pre & post & ->).
  assert (Hfresh : ~ In key (obj_keys post)).
  { unfold obj_keys in *. rewrite map_app in Hnd. simpl in Hnd.
    apply NoDup_remove_2 in Hnd. intros Hin. apply Hnd.
    apply in_or_app. now right. }
  destruct (Orchestrator.loop_returns w pre []) as [before Hpre].
  unfold collectReadings in Hres. rewrite Run.for_of_app in Hres.
  rewrite (Run.bind_normal _ _ _ Hpre) in Hres.
  destruct (Orchestrator.loop_cons w before key meta post)
    as (reading & Hstep & Heq).
  rewrite Heq in Hres.
  change (outcome (for_of (main_step w) post (obj_set before key reading)) =
          Normal results) in Hres.
  exists before, reading. split; [exact Hstep|].
  rewrite (Orchestrator.loop_get w post _ _ Hres key Hfresh).
  apply Object.get_set_same.
Qed.

(** *** The ways [deliver] and the process end *)

Lemma deliver_cases w report :
  let f := report_filename w (timestamp report) in
  let d := JSON_stringify report in
  (exists e,
     writeFileSync w f d = Throw e /\
     deliver w report = ([WriteFile f d], Throw e)) \/
  (exists rest,
     writeFileSync w f d = Normal tt /\
     notification w report rest /\
     deliver w report =
       (WriteFile f d :: ConsoleLog [LogStr "Wrote"; LogStr f]
        :: rest ++ [ConsoleLog [LogStr d]], Normal tt)).
Proof.
  intros f d. subst f d. unfold deliver, perform, bind, try_catch.
  destruct (writeFileSync w (report_filename w (timestamp report))
              (JSON_stringify report)) as [[]|e]; [|left; eauto].
  right.
  destruct (env w "WEBHOOK_URL") as [webhook|] eqn:Henv.
  - destruct (truthy_string webhook) eqn:Hurl.
    + destruct (axios_post w webhook report) as [[]|e] eqn:Hpost.
      * eexists. split; [reflexivity|]. split; [|reflexivity].
        now apply (posted w report webhook).
      * eexists. split; [reflexivity|]. split; [|reflexivity].
        now apply (post_failed w report webhook e).
    + exists []. split; [reflexivity|]. split; [|reflexivity].
      apply no_webhook. rewrite Henv. exact Hurl.
  - exists []. split; [reflexivity|]. split; [|reflexivity].
    apply no_webhook. now rewrite Henv.
Qed.

Lemma run_ending w :
  exists report tail code,
    outcome (assemble w) = Normal report /\
    run w = (trace (assemble w) ++ tail, code) /\
    ending w report tail code.
Proof.
  destruct (Orchestrator.assemble_returns w) as (results & _ & Heq).
  assert (Hout : outcome (assemble w) =
                 Normal (buildReport (clock w) results))
    by now rewrite Heq.
  exists (buildReport (clock w) results).
  destruct (deliver_cases w (buildReport (clock w) results))
    as [(e & Hw & Hd)|(rest & Hw & Hn & Hd)].
  - eexists. exists 1%Z. split; [exact Hout|]. split.
    + unfold run. rewrite (Orchestrator.main_unfold w _ Hout), Hd.
      cbn [trace outcome fst snd]. now rewrite <- app_assoc.
    + apply ends_unwritten. exact Hw.
  - eexists. exists 0%Z. split; [exact Hout|]. split.
    + unfold run. rewrite (Orchestrator.main_unfold w _ Hout), Hd.
      cbn [trace outcome fst snd]. reflexivity.
    + now apply ends_written.
Qed.

(** *** [timestamp.replace(/[:.]/g, '-')] *)

Lemma replace_length s :
  String.length (replace_colon_dot s) = String.length s.
Proof. induction s as [|c s IH]; simpl; congruence. Qed.

Lemma replace_get s : forall i,
  String.get i (replace_colon_dot s) =
  option_map
    (fun c => if Ascii.eqb c ":" || Ascii.eqb c "." then "-"%char else c)
    (String.get i s).
Proof.
  induction s as [|c s IH]; intros [|i]; simpl; auto.
Qed.

Lemma replace_inj_pointwise s1 s2 i c1 c2 :
  replace_colon_dot s1 = replace_colon_dot s2 ->
  String.get i s1 = Some c1 ->
  String.get i s2 = Some c2 ->
  c1 = c2 \/
  (In c1 [":"; "."; "-"]%char /\ In c2 [":"; "."; "-"]%char).
Proof.
  intros Heq H1 H2.
  pose proof (replace_get s1 i) as G1. pose proof (replace_get s2 i) as G2.
  rewrite Heq, G2, H1, H2 in G1. simpl in G1. injection G1 as G.
  destruct (Ascii.eqb_spec c1 ":"), (Ascii.eqb_spec c1 "."),
           (Ascii.eqb_spec c2 ":"), (Ascii.eqb_spec c2 ".");
    simpl in G; subst; simpl; auto 10.
Qed.

(** *** String concatenation *)

Lemma append_length s t :
  String.length (s ++ t)%string = (String.length s + String.length t)%nat.
Proof. induction s as [|c s IH]; simpl; congruence. Qed.

Lemma append_inj_l p a b : (p ++ a = p ++ b)%string -> a = b.
Proof. induction p as [|c p IH]; simpl; [auto|]. intros [= H]. auto. Qed.

Lemma append_inj_r t : forall a b, (a ++ t = b ++ t)%string -> a = b.
Proof.
  induction a as [|c a IH]; intros [|c' b] H; simpl in H.
  - reflexivity.
  - apply (f_equal String.length) in H. simpl in H.
    rewrite append_length in H. lia.
  - apply (f_equal String.length) in H. simpl in H.
    rewrite append_length in H. lia.
  - injection H as -> H. f_equal. now apply IH.
Qed.

(** *** Objects and the loop, continued *)

Lemma obj_set_fresh {A : Type} (o : Obj A) k v :
  ~ In k (obj_keys o) -> obj_set o k v = o ++ [(k, v)].
Proof.
  induction o as [|[k0 v0] o IH]; simpl; intros Hnin; [reflexivity|].
  destruct (String.eqb_spec k0 k) as [->|Hne].
  - exfalso. auto.
  - f_equal. apply IH. auto.
Qed.

Lemma obj_set_inj {A : Type} (o : Obj A) k v1 v2 :
  obj_set o k v1 = obj_set o k v2 -> v1 = v2.
Proof.
  intros H. apply (f_equal (fun o' => obj_get o' k)) in H.
  rewrite !Object.get_set_same in H. now injection H.
Qed.

(** The reading that a turn stores, by the chain's own configuration. *)
Lemma main_step_reading w acc key meta reading :
  outcome (main_step w acc (key, meta)) = Normal (obj_set acc key reading) ->
  (truthy_opt (env w (rpcEnv meta)) = false /\
   reading = missing_env meta) \/
  (exists rpc,
     env w (rpcEnv meta) = Some rpc /\
     truthy_string rpc = true /\
     outcome (fetchGasData {| provider_url := rpc;
                              provider_endpoint := endpoint w rpc |}) =
       Normal reading).
Proof.
  intros H.
  destruct (main_step_cases w acc key meta)
    as [(Henv & Hstep)|(rpc & r & Henv & Hrpc & Hr & Hstep)];
    rewrite Hstep in H; unfold outcome in H; simpl in H;
    injection H as H; apply obj_set_inj in H; subst reading.
  - left. auto.
  - right. exists rpc. auto.
Qed.

Lemma loop_all_missing w registry :
  (forall key meta,
     In (key, meta) registry -> truthy_opt (env w (rpcEnv meta)) = false) ->
  forall acc,
    NoDup (obj_keys acc ++ obj_keys registry) ->
    for_of (main_step w) registry acc =
    ([], Normal (acc ++ all_missing registry)).
Proof.
  induction registry as [|[key meta] registry IH]; intros Hall acc Hnd.
  - simpl. now rewrite app_nil_r.
  - assert (Hstep := Orchestrator.main_step_missing w acc key meta
                       (Hall key meta (or_introl eq_refl))).
    rewrite (for_of_cons_value _ _ _ _ _ _ _ Hstep).
    simpl in Hnd.
    assert (Hfresh : ~ In key (obj_keys acc)).
    { apply NoDup_remove_2 in Hnd. intros Hin. apply Hnd.
      apply in_or_app. now left. }
    rewrite (obj_set_fresh acc key _ Hfresh).
    rewrite IH.
    + unfold trace, outcome. simpl. now rewrite <- app_assoc.
    + intros k m Hin. apply (Hall k m). now right.
    + unfold obj_keys at 1. rewrite map_app. simpl.
      rewrite <- app_assoc. exact Hnd.
Qed.

(** *** What follows the loop *)

Lemma notification_events w report rest ev :
  notification w report rest ->
  In ev rest ->
  is_rpc ev = false /\
  (forall f d, ev <> WriteFile f d) /\
  (is_post ev = true ->
   exists webhook,
     ev = Post webhook report /\
     env w "WEBHOOK_URL" = Some webhook /\
     truthy_string webhook = true).
Proof.
  intros Hn Hin. destruct Hn; simpl in Hin.
  - contradiction.
  - destruct Hin as [<-|[<-|[]]]; simpl;
      (split; [reflexivity|split; [discriminate|]]);
      [eauto|discriminate].
  - destruct Hin as [<-|[<-|[]]]; simpl;
      (split; [reflexivity|split; [discriminate|]]);
      [eauto|discriminate].
Qed.

Lemma notification_posts w report rest :
  notification w report rest ->
  (List.length (filter is_post rest) <= 1)%nat /\ filter is_rpc rest = [].
Proof. intros Hn. destruct Hn; simpl; auto. Qed.

End WithRuntime.

End Support.

(** ** Properties *)

Module Extras.

(** X4. The average reward lies between the smallest and the largest
    reward: whatever bounds hold of every reward hold of
    [sum.div(count)]. *)
Theorem avgReward_within_range (rewards : list Z) (lo hi : Z) :
  rewards <> [] ->
  (forall r, In r rewards -> lo <= r <= hi)%Z ->
  (lo <= avgReward rewards <= hi)%Z.
Proof.
  intros Hne Hall. unfold avgReward.
  pose proof (Support.length_pos rewards Hne) as Hn.
  pose proof (Support.sum_bounds lo hi rewards Hall) as [Hlo Hhi].
  split.
  - rewrite <- (Z.quot_mul lo (Z.of_nat (List.length rewards))) by lia.
    now apply Z.quot_le_mono.
  - rewrite <- (Z.quot_mul hi (Z.of_nat (List.length rewards))) by lia.
    now apply Z.quot_le_mono.
Qed.

Lemma avgReward_within_range_witness :
  (800000000 <= avgReward [800000000; 1200000000; 1000000001]
   <= 1200000000)%Z.
Proof.
  apply avgReward_within_range.
  - discriminate.
  - simpl. intros r [<-|[<-|[<-|[]]]]; lia.
Defined.

(** X5. For rewards that are not negative the division loses less than
    one unit per reward: [count * avg <= sum < count * avg + count]. *)
Theorem avgReward_truncation (rewards : list Z) :
  rewards <> [] ->
  (forall r, In r rewards -> 0 <= r)%Z ->
  let n := Z.of_nat (List.length rewards) in
  let sum := fold_left Z.add rewards 0%Z in
  (0 <= avgReward rewards /\
   n * avgReward rewards <= sum < n * avgReward rewards + n)%Z.
Proof.
  intros Hne Hall n sum. unfold avgReward. fold n sum.
  assert (Hn : (0 < n)%Z) by now apply Support.length_pos.
  assert (Hsum : (0 <= sum)%Z).
  { revert Hall. subst sum. clear. intros Hall.
    induction rewards as [|x l IH]; [simpl; lia|].
    change (fold_left Z.add (x :: l) 0%Z) with (fold_left Z.add l x).
    rewrite Support.sum_shift.
    assert (0 <= x)%Z by (apply Hall; now left).
    assert (0 <= fold_left Z.add l 0)%Z
      by (apply IH; intros r Hr; apply Hall; now right).
    lia. }
  pose proof (Z.quot_rem' sum n) as Hqr.
  pose proof (Z.rem_bound_pos sum n Hsum Hn) as Hr.
  split; [apply Z.quot_pos; lia|]. lia.
Qed.

Lemma avgReward_truncation_witness :
  (0 <= avgReward [1; 2; 2] /\
   3 * avgReward [1; 2; 2] <= 5 < 3 * avgReward [1; 2; 2] + 3)%Z.
Proof.
  apply (avgReward_truncation [1; 2; 2]%Z).
  - discriminate.
  - simpl. intros r [<-|[<-|[<-|[]]]]; lia.
Defined.

(** X6. An entry without error whose score is strictly below the score
    of every other entry without error is the one returned, wherever it
    stands in the map. *)
Theorem strict_minimum_wins pre key val post :
  has_error val = false ->
  (forall k v,
     In (k, v) (pre ++ post) -> has_error v = false ->
     PrimFloat.ltb (total_of val) (total_of v) = true) ->
  chooseBestChain (pre ++ (key, val) :: post) = Some key.
Proof.
  intros Hval Hmin. unfold chooseBestChain.
  pose proof (Ranker.chooseBestChain_best_of (pre ++ (key, val) :: post))
    as Inv.
  destruct (chooseBestChain_loop (pre ++ (key, val) :: post) None)
    as [b|]; simpl in Inv.
  - destruct Inv as (pre' & v' & post' & Heq & Hv' & Hs & Hpre & Hpost).
    assert (Hbelow : forall k v,
              In (k, v) (pre ++ (key, val) :: post) ->
              has_error v = false ->
              PrimFloat.ltb (total_of v) (score b) = false).
    { intros k v Hin Hok. rewrite Heq in Hin.
      apply in_app_or in Hin as [Hin|[E|Hin]].
      - now apply (Hpre k v).
      - inversion E; subst. rewrite Hs. apply JsNumber.ltb_irrefl.
      - now apply (Hpost k v). }
    assert (Hb : In (chain b, v') (pre ++ (key, val) :: post)).
    { rewrite Heq. apply in_or_app. right. now left. }
    pose proof (Hbelow key val (in_elt _ _ _) Hval) as F. rewrite Hs in F.
    apply in_app_or in Hb as [Hb|[E|Hb]].
    + rewrite (Hmin (chain b) v') in F; [discriminate| |exact Hv'].
      apply in_or_app. left. exact Hb.
    + now inversion E.
    + rewrite (Hmin (chain b) v') in F; [discriminate| |exact Hv'].
      apply in_or_app. right. exact Hb.
  - rewrite (Inv key val) in Hval; [discriminate|apply in_elt].
Qed.

Lemma strict_minimum_wins_witness :
  chooseBestChain Scenario.readings_middle = Some "optimism".
Proof.
  apply (strict_minimum_wins
           [("base", Sample.reading 12 (Some 1.5%float));
            ("down", Sample.failed "Error: timeout")]
           "optimism" (Sample.reading 6 (Some 0.5%float))
           [("arbitrum", Sample.reading 9 (Some 1%float))]).
  - reflexivity.
  - simpl. intros k v [E|[E|[E|[]]]] Hok; inversion E; subst;
      try discriminate; vm_compute; reflexivity.
Defined.

(** X7. A score that is [NaN] compares false both ways: an entry with
    such a score never replaces the current best, and when it is the
    first entry without error nothing after it replaces it. *)
Theorem nan_score_is_sticky :
  (forall b key val,
     PrimFloat.is_nan (total_of val) = true ->
     chooseBestChain_step (Some b) (key, val) = Some b) /\
  (forall pre key val post,
     (forall k v, In (k, v) pre -> has_error v = true) ->
     has_error val = false ->
     PrimFloat.is_nan (total_of val) = true ->
     chooseBestChain (pre ++ (key, val) :: post) = Some key).
Proof.
  split.
  - intros b key val Hnan. unfold chooseBestChain_step.
    destruct (has_error val); [reflexivity|].
    now destruct (Support.nan_not_ltb (total_of val) (score b) Hnan)
      as [-> _].
  - intros pre key val post Hpre Hval Hnan. unfold chooseBestChain.
    rewrite Support.loop_app, (Support.loop_all_errors pre None Hpre).
    change (chooseBestChain_loop ((key, val) :: post) None)
      with (chooseBestChain_loop post
              (chooseBestChain_step None (key, val))).
    unfold chooseBestChain_step. rewrite Hval.
    now rewrite Support.loop_nan_best.
Qed.

(** A reading without gas price or truthy error ahead of a proper one
    is what the ranker returns. *)
Lemma nan_score_is_sticky_witness :
  chooseBestChain Scenario.readings_nan_first = Some "A".
Proof.
  apply (proj2 nan_score_is_sticky [] "A" (Sample.failed "")
           [("B", Sample.reading 5 None)]).
  - intros k v [].
  - reflexivity.
  - reflexivity.
Defined.

Section WithRuntime.
Context {rt : Runtime}.

(** X1. [fetchGasData] never throws. When the gas-price call throws it
    makes that one call only and returns [{ error: String(err) }] with
    no numeric field; otherwise it returns the gas price in gwei and no
    error. *)
Theorem fetchGasData_reading_shape provider :
  exists reading,
    outcome (fetchGasData provider) = Normal reading /\
    ((exists e,
        getGasPrice (provider_endpoint provider) = Throw e /\
        reading = {| gas_price_gwei := None;
                     priority_fee_gwei := None;
                     error := Some (thrown_string e) |} /\
        trace (fetchGasData provider) =
          [Rpc (provider_url provider) GetGasPrice]) \/
     (exists gasPrice,
        getGasPrice (provider_endpoint provider) = Normal gasPrice /\
        gas_price_gwei reading =
          Some (parseFloat (formatUnits_gwei gasPrice)) /\
        error reading = None)).
Proof.
  destruct (getGasPrice (provider_endpoint provider)) as [gasPrice|e]
    eqn:Hgas.
  - eexists. split; [apply (Fetcher.fetchGasData_primary_ok _ _ Hgas)|].
    right. exists gasPrice. auto.
  - rewrite (Fetcher.fetchGasData_primary_fails _ _ Hgas).
    eexists. split; [reflexivity|]. left. exists e. auto.
Qed.

(** X2. A fetch asks for the gas price first; after it, at most the
    block number and then one [eth_feeHistory] request for
    [hexValue(5)] blocks up to the block number just read; all on the
    provider's URL and never more than three calls. *)
Theorem fetch_call_protocol provider :
  let url := provider_url provider in
  exists rest,
    trace (fetchGasData provider) = Rpc url GetGasPrice :: rest /\
    (rest = [] \/
     rest = [Rpc url GetBlockNumber] \/
     exists latest h_count h_latest,
       getBlockNumber (provider_endpoint provider) = Normal latest /\
       hexValue 5 = Normal h_count /\
       hexValue latest = Normal h_latest /\
       rest = [Rpc url GetBlockNumber;
               Rpc url (Send "eth_feeHistory"
                          [JStr h_count; JStr h_latest;
                           JArr [JNum 50%float]])]) /\
    (rest <> [] ->
     exists gasPrice,
       getGasPrice (provider_endpoint provider) = Normal gasPrice).
Proof.
  intros url. subst url.
  destruct (Support.fetch_trace_shape provider)
    as [(e & Hg & ->)|(g & Hg & [->|(l & hc & hl & Hb & Hc & Hl & ->)])].
  - exists []. split; [reflexivity|]. split; [now left|congruence].
  - eexists. split; [reflexivity|]. split; [right; now left|eauto].
  - eexists. split; [reflexivity|]. split; [|eauto].
    right. right. exists l, hc, hl. auto.
Qed.

(** X3. The estimate is all or nothing: when one block that reports a
    reward has a value [BigNumber.from] rejects, the reading has no
    priority fee, whatever the other blocks report; the gas price
    stands and there is no error. *)
Theorem one_bad_reward_voids_estimate
    provider gasPrice latest h_count h_latest res items r e :
  getGasPrice (provider_endpoint provider) = Normal gasPrice ->
  getBlockNumber (provider_endpoint provider) = Normal latest ->
  hexValue 5 = Normal h_count ->
  hexValue latest = Normal h_latest ->
  send (provider_endpoint provider) "eth_feeHistory"
       [JStr h_count; JStr h_latest; JArr [JNum 50%float]] = Normal res ->
  get_reward res = JArr items ->
  In r items ->
  truthy r && truthy (get_index0 r) = true ->
  BigNumber_from (get_index0 r) = Throw e ->
  outcome (fetchGasData provider) =
  Normal {| gas_price_gwei := Some (parseFloat (formatUnits_gwei gasPrice));
            priority_fee_gwei := None;
            error := None |}.
Proof.
  intros Hgas Hb Hc Hl Hs Hr Hin Hrep Hbad.
  destruct (Support.array_map_throws items r e Hin Hrep Hbad) as [e' Hmap].
  rewrite (Fetcher.fetchGasData_primary_ok _ _ Hgas).
  rewrite (Fetcher.estimate_fails_none provider); [reflexivity|].
  apply (fails_map provider latest h_count h_latest res e' Hb Hc Hl Hs).
  rewrite Hr. exact Hmap.
Qed.

(** X8. With distinct chain ids, the reading stored for a chain is
    decided by that chain alone: the missing-variable error when its
    variable is unset or empty, and otherwise what [fetchGasData]
    returns for its own endpoint, whatever the other chains do. *)
Theorem reading_depends_on_own_chain (w : World) registry key meta results :
  NoDup (obj_keys registry) ->
  In (key, meta) registry ->
  outcome (collectReadings w registry) = Normal results ->
  (truthy_opt (env w (rpcEnv meta)) = false ->
   obj_get results key = Some (missing_env meta)) /\
  (forall rpc,
     env w (rpcEnv meta) = Some rpc ->
     truthy_string rpc = true ->
     exists reading,
       obj_get results key = Some reading /\
       outcome (fetchGasData {| provider_url := rpc;
                                provider_endpoint := endpoint w rpc |}) =
         Normal reading).
Proof.
  intros Hnd Hin Hres.
  destruct (Support.loop_reading w registry key meta results Hnd Hin Hres)
    as (acc & reading & Hstep & Hget).
  destruct (Support.main_step_reading w acc key meta reading Hstep)
    as [(Henv & ->)|(rpc & Henv & Hrpc & Hr)].
  - split; [intros _; exact Hget|].
    intros rpc E T. unfold truthy_opt in Henv. rewrite E, T in Henv.
    discriminate.
  - split.
    + intros F. unfold truthy_opt in F. rewrite Henv, Hrpc in F.
      discriminate.
    + intros rpc' E T. rewrite Henv in E. injection E as <-.
      exists reading. auto.
Qed.


(** X10. When the gas-price call of some configured chain succeeds, the
    report names a best chain, one of [CHAINS], and the recommendation
    is the sentence with that chain's key. *)
Theorem some_success_gives_recommendation (w : World) key meta rpc gasPrice :
  In (key, meta) CHAINS ->
  env w (rpcEnv meta) = Some rpc ->
  truthy_string rpc = true ->
  getGasPrice (endpoint w rpc) = Normal gasPrice ->
  exists report k,
    outcome (assemble w) = Normal report /\
    best_chain report = Some k /\
    In k (obj_keys CHAINS) /\
    recommendation report =
      ("Send your transactions on " ++ k ++ " now for lowest fees.")%string.
Proof.
  intros Hin Henv Hrpc Hgas.
  destruct (Orchestrator.assemble_returns w) as (results & Hres & Heq).
  destruct (Support.loop_reading w CHAINS key meta results
              Orchestrator.CHAINS_NoDup Hin Hres)
    as (acc & reading & Hstep & Hget).
  assert (Hok : has_error reading = false).
  { destruct (Support.main_step_reading w acc key meta reading Hstep)
      as [(F & _)|(rpc' & E & _ & Hr)].
    - unfold truthy_opt in F. rewrite Henv, Hrpc in F. discriminate.
    - rewrite Henv in E. injection E as <-.
      rewrite (Fetcher.fetchGasData_primary_ok
                 {| provider_url := rpc;
                    provider_endpoint := endpoint w rpc |} gasPrice Hgas)
        in Hr.
      injection Hr as <-. reflexivity. }
  pose proof (Ranker.chooseBestChain_best_of results) as Inv.
  assert (Hbest : exists k v,
            chooseBestChain results = Some k /\ In (k, v) results).
  { unfold chooseBestChain.
    destruct (chooseBestChain_loop results None) as [b|]; simpl in Inv.
    - destruct Inv as (pre & v & post & -> & _).
      exists (chain b), v. split; [reflexivity|]. apply in_elt.
    - rewrite (Inv key reading (Support.obj_get_in _ _ _ Hget)) in Hok.
      discriminate. }
  destruct Hbest as (k & v & Hbest & Hk).
  assert (Hkeys : In k (obj_keys CHAINS)).
  { pose proof (Orchestrator.loop_keys w CHAINS [] results Hres
                  Orchestrator.CHAINS_NoDup) as E.
    change (obj_keys results = obj_keys CHAINS) in E.
    rewrite <- E. apply (in_map fst) in Hk. exact Hk. }
  exists (buildReport (clock w) results), k.
  split; [now rewrite Heq|]. split; [exact Hbest|]. split; [exact Hkeys|].
  unfold buildReport. simpl. rewrite Hbest. simpl.
  simpl in Hkeys. destruct Hkeys as [<-|[<-|[<-|[]]]]; reflexivity.
Qed.

(** X11. When no chain of a registry with distinct ids has its variable
    set, the loop performs no event and stores the missing-variable
    error for each chain in order; for [CHAINS] the report then has no
    best chain and the no-recommendation sentence, and the run makes no
    network call. *)
Theorem unconfigured_run_is_offline (w : World) registry :
  NoDup (obj_keys registry) ->
  (forall key meta,
     In (key, meta) registry -> truthy_opt (env w (rpcEnv meta)) = false) ->
  collectReadings w registry = ([], Normal (all_missing registry)) /\
  chooseBestChain (all_missing registry) = None /\
  (registry = CHAINS ->
   assemble w =
     ([], Normal {| timestamp := clock w;
                    best_chain := None;
                    recommendation := "No recommendation (insufficient data).";
                    chains := all_missing CHAINS |}) /\
   filter is_rpc (fst (run w)) = []).
Proof.
  intros Hnd Hall.
  assert (Hloop : collectReadings w registry =
                  ([], Normal (all_missing registry))).
  { unfold collectReadings.
    now rewrite (Support.loop_all_missing w registry Hall []). }
  assert (Hnone : chooseBestChain (all_missing registry) = None).
  { unfold chooseBestChain. rewrite Support.loop_all_errors; [reflexivity|].
    intros k v Hin. unfold all_missing in Hin.
    apply in_map_iff in Hin as ([k' m] & E & _). now inversion E. }
  split; [exact Hloop|]. split; [exact Hnone|].
  intros ->.
  assert (Hasm : assemble w =
     ([], Normal {| timestamp := clock w;
                    best_chain := None;
                    recommendation := "No recommendation (insufficient data).";
                    chains := all_missing CHAINS |})).
  { unfold assemble. rewrite Hloop. reflexivity. }
  split; [exact Hasm|].
  destruct (Support.run_ending w) as (report & tail & code & _ & -> & Hend).
  rewrite Hasm. simpl.
  destruct Hend as [e Hw|rest Hw Hn]; [reflexivity|].
  simpl. rewrite filter_app.
  destruct (Support.notification_posts w report rest Hn) as [_ ->].
  reflexivity.
Qed.

Lemma rpc_events_are_no_posts (events : list Event) :
  forallb is_rpc events = true -> filter is_post events = [].
Proof.
  induction events as [|ev events IH]; [reflexivity|]. simpl.
  destruct ev; simpl; try discriminate. exact IH.
Qed.


(** X13. When the write throws, the run ends there: after the loop come
    the write attempt and [console.error(err)] only, with exit code 1;
    nothing is posted to the webhook and the report is not printed. *)
Theorem write_failure_aborts (w : World) report e :
  outcome (assemble w) = Normal report ->
  writeFileSync w (report_filename w (timestamp report))
                  (JSON_stringify report) = Throw e ->
  run w =
  (trace (assemble w) ++
   [WriteFile (report_filename w (timestamp report)) (JSON_stringify report);
    ConsoleError [LogThrown e]],
   1%Z).
Proof.
  intros Hout Hw.
  destruct (Support.run_ending w) as (report' & tail & code & Hout' & -> & Hend).
  rewrite Hout in Hout'. injection Hout' as <-.
  destruct Hend as [e' Hw'|rest Hw' Hn]; rewrite Hw in Hw'.
  - now injection Hw' as <-.
  - discriminate.
Qed.

(** X14. Whatever is posted goes to the URL of [WEBHOOK_URL], is the
    report of the run, and follows a successful write of that report;
    a run posts at most once. *)
Theorem post_is_configured_and_follows_write (w : World) url body :
  In (Post url body) (fst (run w)) ->
  env w "WEBHOOK_URL" = Some url /\
  truthy_string url = true /\
  outcome (assemble w) = Normal body /\
  writeFileSync w (report_filename w (timestamp body))
                  (JSON_stringify body) = Normal tt /\
  (exists before after,
     fst (run w) = before ++ Post url body :: after /\
     In (WriteFile (report_filename w (timestamp body))
                   (JSON_stringify body)) before) /\
  (List.length (filter is_post (fst (run w))) <= 1)%nat.
Proof.
  destruct (Support.run_ending w) as (report & tail & code & Hout & -> & Hend).
  simpl fst. intros Hin.
  pose proof (Orchestrator.assemble_trace w) as Hrpc.
  apply in_app_or in Hin as [Hin|Hin].
  { rewrite forallb_forall in Hrpc. specialize (Hrpc _ Hin). discriminate. }
  destruct Hend as [e Hw|rest Hw Hn].
  { simpl in Hin. destruct Hin as [F|[F|[]]]; discriminate. }
  simpl in Hin. destruct Hin as [F|[F|Hin]]; try discriminate.
  apply in_app_or in Hin as [Hin|[F|[]]]; [|discriminate].
  destruct (Support.notification_events w report rest _ Hn Hin)
    as (_ & _ & Hpost).
  destruct (Hpost eq_refl) as (webhook & E & Henv & Hurl).
  injection E as -> ->.
  do 4 (split; [assumption|]). split.
  - apply in_split in Hin as (r1 & r2 & ->).
    exists (trace (assemble w) ++
            WriteFile (report_filename w (timestamp report))
                      (JSON_stringify report)
            :: ConsoleLog [LogStr "Wrote";
                           LogStr (report_filename w (timestamp report))]
            :: r1),
           (r2 ++ [ConsoleLog [LogStr (JSON_stringify report)]]).
    split.
    + repeat (rewrite <- app_assoc; simpl). reflexivity.
    + apply in_or_app. right. now left.
  - rewrite filter_app, (rpc_events_are_no_posts _ Hrpc). simpl.
    rewrite filter_app. simpl. rewrite app_nil_r.
    apply (Support.notification_posts w report rest Hn).
Qed.


(** X16. When the run exits with 0, the last thing it prints is the
    very string it wrote to the report file. *)
Theorem stdout_matches_file (w : World) :
  snd (run w) = 0%Z ->
  exists report before,
    outcome (assemble w) = Normal report /\
    fst (run w) =
      before ++ [ConsoleLog [LogStr (JSON_stringify report)]] /\
    In (WriteFile (report_filename w (timestamp report))
                  (JSON_stringify report)) before.
Proof.
  destruct (Support.run_ending w) as (report & tail & code & Hout & -> & Hend).
  simpl. intros ->. inversion Hend as [|rest Hw Hn Ht]; subst.
  exists report,
    (trace (assemble w) ++
     WriteFile (report_filename w (timestamp report)) (JSON_stringify report)
     :: ConsoleLog [LogStr "Wrote";
                    LogStr (report_filename w (timestamp report))]
     :: rest).
  split; [exact Hout|]. split.
  - rewrite <- app_assoc. reflexivity.
  - apply in_or_app. right. now left.
Qed.

End WithRuntime.

(** X17. [timestamp.replace(/[:.]/g, '-')] keeps the length, leaves no
    [':'] and no ['.'], keeps every other character where it is, and
    changes nothing when applied again. *)
Theorem timestamp_made_filename_safe (s : string) :
  String.length (replace_colon_dot s) = String.length s /\
  (forall i c,
     String.get i (replace_colon_dot s) = Some c ->
     c <> ":"%char /\ c <> "."%char) /\
  (forall i c,
     String.get i s = Some c -> c <> ":"%char -> c <> "."%char ->
     String.get i (replace_colon_dot s) = Some c) /\
  replace_colon_dot (replace_colon_dot s) = replace_colon_dot s.
Proof.
  split; [apply Support.replace_length|]. split; [|split].
  - intros i c. rewrite Support.replace_get.
    destruct (String.get i s) as [c0|]; simpl; [|discriminate].
    intros [= <-].
    destruct (Ascii.eqb_spec c0 ":"), (Ascii.eqb_spec c0 "."); simpl;
      split; congruence.
  - intros i c Hget Hc Hd. rewrite Support.replace_get, Hget. simpl.
    destruct (Ascii.eqb_spec c ":"), (Ascii.eqb_spec c "."); simpl;
      congruence.
  - induction s as [|c s IH]; [reflexivity|]. simpl. rewrite IH. f_equal.
    destruct (Ascii.eqb_spec c ":"), (Ascii.eqb_spec c "."); simpl;
      try reflexivity.
    destruct (Ascii.eqb_spec c ":"), (Ascii.eqb_spec c "."); simpl;
      congruence.
Qed.

(** X18. Two timestamps get the same report file only when they have the
    same length and differ at most where both have one of [':'], ['.']
    and ['-']; timestamps that differ in a digit get different files. *)
Theorem same_file_only_for_like_timestamps (w : World) ts1 ts2 :
  report_filename w ts1 = report_filename w ts2 ->
  String.length ts1 = String.length ts2 /\
  forall i c1 c2,
    String.get i ts1 = Some c1 ->
    String.get i ts2 = Some c2 ->
    c1 = c2 \/
    (In c1 [":"; "."; "-"]%char /\ In c2 [":"; "."; "-"]%char).
Proof.
  unfold report_filename, path_join. intros H.
  apply Support.append_inj_l in H.
  apply (Support.append_inj_l "/report-") in H.
  apply Support.append_inj_r in H.
  split.
  - rewrite <- (Support.replace_length ts1), H.
    apply Support.replace_length.
  - intros i c1 c2. now apply Support.replace_inj_pointwise.
Qed.

(** *** Sample runs of the properties above *)

Lemma one_bad_reward_voids_estimate_witness :
  outcome (@fetchGasData Sample.runtime Scenario.provider_bad_reward) =
  Normal (Sample.reading 6 None).
Proof.
  apply (@one_bad_reward_voids_estimate Sample.runtime
           Scenario.provider_bad_reward 6000000000%Z 1000%Z "0x5" "0x3e8"
           (JObj [("reward", JArr [JArr [JStr "0x2faf0800"];
                                   JArr [JStr "0x2faf0800"];
                                   JArr [JStr "n/a"];
                                   JArr [JStr "0x2faf0800"]])])
           [JArr [JStr "0x2faf0800"]; JArr [JStr "0x2faf0800"];
            JArr [JStr "n/a"]; JArr [JStr "0x2faf0800"]]
           (JArr [JStr "n/a"])
           (mkThrown (Some "invalid BigNumber string")
                     "Error: invalid BigNumber string"));
    try reflexivity.
  simpl. auto.
Defined.

Lemma reading_depends_on_own_chain_witness :
  exists results,
    outcome (@collectReadings Sample.runtime Sample.world_partial CHAINS) =
      Normal results /\
    obj_get results "base" = Some (Sample.failed "Missing env RPC_BASE").
Proof.
  eexists. split; [vm_compute; reflexivity|].
  apply (@reading_depends_on_own_chain Sample.runtime Sample.world_partial
           CHAINS "base" {| name := "Base"; rpcEnv := "RPC_BASE" |}).
  - apply Orchestrator.CHAINS_NoDup.
  - simpl. auto.
  - vm_compute. reflexivity.
  - reflexivity.
Defined.

Lemma some_success_gives_recommendation_witness :
  exists report k,
    outcome (@assemble Sample.runtime Sample.world_partial) = Normal report /\
    best_chain report = Some k /\
    In k (obj_keys CHAINS) /\
    recommendation report =
      ("Send your transactions on " ++ k ++ " now for lowest fees.")%string.
Proof.
  apply (@some_success_gives_recommendation Sample.runtime
           Sample.world_partial "arbitrum"
           {| name := "Arbitrum"; rpcEnv := "RPC_ARBITRUM" |}
           "https://arbitrum.example" 9000000000%Z).
  - simpl. auto.
  - reflexivity.
  - reflexivity.
  - reflexivity.
Defined.

Lemma unconfigured_run_is_offline_witness :
  @collectReadings Sample.runtime Scenario.world_unconfigured CHAINS =
    ([], Normal (all_missing CHAINS)) /\
  filter is_rpc (fst (@run Sample.runtime Scenario.world_unconfigured)) = [].
Proof.
  destruct (@unconfigured_run_is_offline Sample.runtime
              Scenario.world_unconfigured CHAINS)
    as (Hloop & _ & Hrun).
  - apply Orchestrator.CHAINS_NoDup.
  - reflexivity.
  - split; [exact Hloop|]. now apply Hrun.
Defined.

Lemma write_failure_aborts_witness :
  snd (@run Sample.runtime Scenario.world_disk_full) = 1%Z /\
  forall url body,
    ~ In (Post url body) (fst (@run Sample.runtime Scenario.world_disk_full)).
Proof.
  destruct (Orchestrator.assemble_returns (rt := Sample.runtime)
              Scenario.world_disk_full) as (results & Hres & Heq).
  assert (Hout : outcome (@assemble Sample.runtime Scenario.world_disk_full) =
                 Normal (buildReport (clock Scenario.world_disk_full) results))
    by now rewrite Heq.
  rewrite (@write_failure_aborts Sample.runtime Scenario.world_disk_full
             (buildReport (clock Scenario.world_disk_full) results)
             Scenario.disk_full Hout eq_refl).
  split; [reflexivity|].
  intros url body Hin. cbn [fst] in Hin.
  apply in_app_or in Hin as [Hin|[F|[F|[]]]]; try discriminate.
  pose proof (Orchestrator.assemble_trace (rt := Sample.runtime)
                Scenario.world_disk_full) as Hrpc.
  rewrite forallb_forall in Hrpc. specialize (Hrpc _ Hin). discriminate.
Defined.

Lemma post_is_configured_and_follows_write_witness :
  exists body,
    In (Post "https://hook.example" body)
       (fst (@run Sample.runtime Sample.world_partial)) /\
    outcome (@assemble Sample.runtime Sample.world_partial) = Normal body /\
    (List.length
       (filter is_post (fst (@run Sample.runtime Sample.world_partial)))
     <= 1)%nat.
Proof.
  eexists. split.
  - vm_compute. do 8 right. left. reflexivity.
  - destruct (@post_is_configured_and_follows_write Sample.runtime
                Sample.world_partial "https://hook.example" _
                ltac:(vm_compute; do 8 right; left; reflexivity))
      as (_ & _ & Hout & _ & _ & Hone).
    split; [exact Hout|exact Hone].
Defined.

Lemma stdout_matches_file_witness :
  exists report before,
    outcome (@assemble Sample.runtime Sample.world_all) = Normal report /\
    fst (@run Sample.runtime Sample.world_all) =
      before ++ [ConsoleLog [LogStr (Sample.stringify_brief report)]] /\
    In (WriteFile
          (@report_filename Sample.world_all (timestamp report))
          (Sample.stringify_brief report)) before.
Proof.
  apply (@stdout_matches_file Sample.runtime Sample.world_all).
  vm_compute. reflexivity.
Defined.

Lemma same_file_only_for_like_timestamps_witness :
  String.length "12:00" = String.length "12.00" /\
  forall i c1 c2,
    String.get i "12:00" = Some c1 ->
    String.get i "12.00" = Some c2 ->
    c1 = c2 \/
    (In c1 [":"; "."; "-"]%char /\ In c2 [":"; "."; "-"]%char).
Proof.
  apply (same_file_only_for_like_timestamps Sample.world_all
           "12:00" "12.00").
  reflexivity.
Defined.

End Extras.
